(** * Waybar sway/workspace_tasks: identity resolution and workspace model

    A shallow embedding of
      - include/util/appinfo_provider.hpp   (module [AppInfoProvider])
      - src/modules/sway/workspace_tasks.cpp (module [WorkspaceTasks])
    followed by the properties established about them.

    Conventions.  C++ [int], [int32_t] and [uint32_t] values are carried as
    [Z]; [std::string] is [string]; a null [Glib::RefPtr] is [None];
    [std::unordered_map<std::string, AppInfo>] is [gmap string AppInfo];
    [std::vector] is [list], [push_back]/[emplace_back] append at the end.
    Everything the code obtains from the operating system or from Gio is
    read through the record [System].  Toolkit calls that only draw
    (style classes, tooltips, icons, [show]) are left out; packing a window
    button into a workspace's [content] box is kept, since it decides which
    windows are displayed. *)

From Stdlib Require Import ZArith Ascii String List Lia.
From Stdlib Require Import Sorting.Sorted Sorting.Permutation.
From stdpp Require Import base option list gmap strings pretty.

Local Open Scope Z_scope.
Set Warnings "-register-all,-clear-no-such-hyp".

(* ===================================================================== *)
(** ** std::string helpers *)
(* ===================================================================== *)

Module StdString.

(** [s.empty()] *)
Definition empty (s : string) : bool :=
  match s with EmptyString => true | String _ _ => false end.

(** [starts_with(s, prefix)] of util/string.hpp. *)
Definition starts_with (s pre : string) : bool := String.prefix pre s.

(** [s.find(c)]: position of the first [c], [None] for [npos]. *)
Fixpoint find (c : ascii) (s : string) : option nat :=
  match s with
  | EmptyString => None
  | String a s' =>
      if Ascii.eqb a c then Some 0%nat
      else match find c s' with Some n => Some (S n) | None => None end
  end.

(** [s.substr(pos)]: the tail from [pos] on. *)
Definition substr_from (pos : nat) (s : string) : string :=
  String.substring pos (String.length s) s.

(** [s.substr(pos, count)]; a [count] past the end is clipped. *)
Definition substr (pos count : nat) (s : string) : string :=
  String.substring pos count s.

(** [std::replace(s.begin(), s.end(), a, b)] *)
Fixpoint replace (a b : ascii) (s : string) : string :=
  match s with
  | EmptyString => EmptyString
  | String c s' => String (if Ascii.eqb c a then b else c) (replace a b s')
  end.

(** [std::tolower] in the "C" locale: 'A'..'Z' are moved to 'a'..'z'. *)
Definition tolower (c : ascii) : ascii :=
  let n := nat_of_ascii c in
  if ((65 <=? n) && (n <=? 90))%nat then ascii_of_nat (n + 32) else c.

(** [std::transform(s.begin(), s.end(), std::back_inserter(r), tolower)] *)
Fixpoint transform_tolower (s : string) : string :=
  match s with
  | EmptyString => EmptyString
  | String c s' => String (tolower c) (transform_tolower s')
  end.

End StdString.

(* ===================================================================== *)
(** ** include/util/appinfo_provider.hpp *)
(* ===================================================================== *)

Module AppInfoProvider.

(** What the code reads of a [Gio::DesktopAppInfo]. *)
Record DesktopAppInfo : Type := mkDesktopAppInfo {
  get_id : string;
  get_startup_wm_class : string;
}.

(** [using AppInfo = Glib::RefPtr<Gio::DesktopAppInfo>], null is [None]. *)
Definition AppInfo : Type := option DesktopAppInfo.

#[global] Instance DesktopAppInfo_eq_dec : EqDecision DesktopAppInfo.
Proof. solve_decision. Defined.

(** The platform services the header calls. *)
Record System : Type := mkSystem {
  (** [Gio::DesktopAppInfo::create(desktop_id)] *)
  desktop_create : string -> AppInfo;
  (** [Gio::DesktopAppInfo::create_from_filename(path)] *)
  desktop_create_from_filename : string -> AppInfo;
  (** [Gio::DesktopAppInfo::get_all()] *)
  desktop_get_all : list DesktopAppInfo;
  (** first line of /proc/<pid>/attr/current; [None] when [getline] fails *)
  proc_attr_current : Z -> option string;
  (** the NUL-separated records of /proc/<pid>/environ, in file order;
      empty when the file cannot be read *)
  proc_environ : Z -> list string;
  (** [fs::is_regular_file] on /proc/<pid>/root/.flatpak-info;
      [None] when it throws *)
  flatpak_is_regular_file : Z -> option bool;
  (** [Application.name] of that key file; [None] for a [Glib::Error] *)
  flatpak_application_name : Z -> option string;
}.

Section Probes.
Variable sys : System.

Definition SNAP_PREFIX : string := "snap.".
Definition ENV_PREFIX : string := "BAMF_DESKTOP_FILE_HINT=".

(** [get_app_info_from_snap] *)
Definition get_app_info_from_snap (pid : Z) : AppInfo :=
  match proc_attr_current sys pid with
  | None => None
  | Some data =>
      if negb (StdString.starts_with data SNAP_PREFIX) then None
      else
        let n := String.length SNAP_PREFIX in
        let data :=
          match StdString.find " " data with
          | Some sp => StdString.substr n (sp - n) data
          | None => StdString.substr_from n data
          end in
        let data := StdString.replace "." "_" data in
        desktop_create sys (data +:+ ".desktop")
  end.

(** The [while (std::getline(f, data, '\0'))] loop of
    [get_app_info_from_bamf_env]. *)
Fixpoint bamf_env_scan (records : list string) : AppInfo :=
  match records with
  | [] => None
  | data :: rest =>
      if StdString.starts_with data ENV_PREFIX then
        desktop_create_from_filename sys
          (StdString.substr_from (String.length ENV_PREFIX) data)
      else bamf_env_scan rest
  end.

(** [get_app_info_from_bamf_env] *)
Definition get_app_info_from_bamf_env (pid : Z) : AppInfo :=
  bamf_env_scan (proc_environ sys pid).

(** [get_app_info_from_flatpak].  When [is_regular_file] throws, the
    error is logged and the key file is loaded all the same. *)
Definition get_app_info_from_flatpak (pid : Z) : AppInfo :=
  match flatpak_is_regular_file sys pid with
  | Some false => None
  | _ =>
      match flatpak_application_name sys pid with
      | Some appName => desktop_create sys (appName +:+ ".desktop")
      | None => None
      end
  end.

End Probes.

(** *** class AppInfoCacheService *)
Module AppInfoCacheService.

(** [std::unordered_map::emplace]: nothing is stored when the key is
    already present. *)
Definition emplace (k : string) (v : DesktopAppInfo)
    (m : gmap string DesktopAppInfo) : gmap string DesktopAppInfo :=
  match m !! k with
  | Some _ => m
  | None => <[k := v]> m
  end.

(** The loop of [load].  [desktop_info->get_startup_wm_class()]
    dereferences the result of [create]; a null pointer there ends the
    program, which is the outer [None]. *)
Fixpoint load_loop (sys : System) (all : list DesktopAppInfo)
    (wm_class_hash_ : gmap string DesktopAppInfo)
    : option (gmap string DesktopAppInfo) :=
  match all with
  | [] => Some wm_class_hash_
  | info :: rest =>
      match desktop_create sys (get_id info) with
      | None => None
      | Some desktop_info =>
          load_loop sys rest
            (emplace (get_startup_wm_class desktop_info) desktop_info
               wm_class_hash_)
      end
  end.

(** [load]: clear, then fill from [get_all]. *)
Definition load (sys : System) : option (gmap string DesktopAppInfo) :=
  load_loop sys (desktop_get_all sys) ∅.

(** [lookup] *)
Definition lookup (wm_class_hash_ : gmap string DesktopAppInfo)
    (StartupWMClass : string) : AppInfo :=
  wm_class_hash_ !! StartupWMClass.

End AppInfoCacheService.

End AppInfoProvider.

(* ===================================================================== *)
(** ** src/modules/sway/workspace_tasks.cpp *)
(* ===================================================================== *)

Module WorkspaceTasks.
Import AppInfoProvider.

(** A decoded node of the GET_TREE answer ([Json::Value]), with the
    members the module reads.  [app_id] is [None] when the object has no
    such member, [Some None] when the member is JSON null and
    [Some (Some s)] when it is a string.  A member that is missing reads
    as its default ("" / 0 / false / no children). *)
Inductive Node : Type := mkNode {
  type : string;
  id : Z;
  name : string;
  num : Z;
  focused : bool;
  urgent : bool;
  visible : bool;
  app_id : option (option string);
  window_properties_class : string;
  window_properties_instance : string;
  pid : Z;
  nodes : list Node;
  floating_nodes : list Node;
}.

Module WindowProperties.
Record t : Type := mk {
  title : string;
  app_id : string;
  instance : string;
  pid : Z;
  focused : bool;
  urgent : bool;
  visible : bool;
}.

Definition fromJson (data : Node) : t :=
  let '(app_id, instance) :=
    match WorkspaceTasks.app_id data with
    | Some (Some s) => (* Wayland *) (s, EmptyString)
    | _ => (* XWayland *)
        (window_properties_class data, window_properties_instance data)
    end in
  {| title := name data;
     app_id := app_id;
     instance := instance;
     pid := WorkspaceTasks.pid data;
     focused := WorkspaceTasks.focused data;
     urgent := WorkspaceTasks.urgent data;
     visible := WorkspaceTasks.visible data |}.
End WindowProperties.

Module WorkspaceProperties.
Record t : Type := mk {
  title : string;
  num : Z;
  focused : bool;
  urgent : bool;
  visible : bool;
}.

Definition fromJson (data : Node) : t :=
  {| title := name data;
     num := WorkspaceTasks.num data;
     focused := WorkspaceTasks.focused data;
     urgent := WorkspaceTasks.urgent data;
     visible := WorkspaceTasks.visible data |}.
End WorkspaceProperties.

(** The six lookups of [Window::findInfo], in source order. *)
Inductive Strategy : Type :=
| InstanceLookup     (* AppInfoCacheService::lookup(props.instance) *)
| DirectId           (* DesktopAppInfo::create(app_id + ".desktop") *)
| BamfEnv            (* get_app_info_from_bamf_env(pid) *)
| Snap               (* get_app_info_from_snap(pid) *)
| Flatpak            (* get_app_info_from_flatpak(pid) *)
| LowerCaseId.       (* DesktopAppInfo::create(lower_app_id + ".desktop") *)

#[global] Instance Strategy_eq_dec : EqDecision Strategy.
Proof. solve_decision. Defined.

(** A computation that records which lookups it performed. *)
Definition Traced (A : Type) : Type := (list Strategy * A)%type.

(** [info = e; if (info) return info; k] where [e] is lookup [s]. *)
Definition try_lookup (s : Strategy) (e : AppInfo)
    (k : Traced AppInfo) : Traced AppInfo :=
  match e with
  | Some info => ([s], Some info)
  | None => let '(tr, r) := k in (s :: tr, r)
  end.

(** [info = e; return info;] where [e] is lookup [s]. *)
Definition last_lookup (s : Strategy) (e : AppInfo) : Traced AppInfo :=
  ([s], e).

Notation "'TRY' s ':=' e ';;' k" := (try_lookup s e k)
  (at level 10, s at level 0, e at level 99, k at level 200,
   format "'[v' 'TRY'  s  ':='  e  ';;' '/' k ']'").

Record Window : Type := mkWindow {
  win_id : Z;
  resolved_app_id : string;
  win_props : WindowProperties.t;
}.

Record Workspace : Type := mkWorkspace {
  ws_id : Z;
  props : WorkspaceProperties.t;
  (** [std::vector<Window> windows] *)
  windows : list Window;
  (** the window buttons packed into the [content] box, each named by
      the window that owns it, in the order of the [pack_end] calls *)
  content : list Window;
}.

Section Impl.
(** Gio and /proc, and the table of the [AppInfoCacheService] singleton. *)
Variable sys : System.
Variable wm_class_hash_ : gmap string DesktopAppInfo.

(** [Window::findInfo], instrumented with the lookups it runs. *)
Definition findInfo_traced (props : WindowProperties.t) : Traced AppInfo :=
  let rest :=
    TRY DirectId :=
      desktop_create sys (WindowProperties.app_id props +:+ ".desktop") ;;
    TRY BamfEnv :=
      get_app_info_from_bamf_env sys (WindowProperties.pid props) ;;
    TRY Snap :=
      get_app_info_from_snap sys (WindowProperties.pid props) ;;
    TRY Flatpak :=
      get_app_info_from_flatpak sys (WindowProperties.pid props) ;;
    let lower_app_id :=
      StdString.transform_tolower (WindowProperties.app_id props) in
    last_lookup LowerCaseId
      (desktop_create sys (lower_app_id +:+ ".desktop")) in
  if negb (StdString.empty (WindowProperties.instance props)) then
    TRY InstanceLookup :=
      AppInfoCacheService.lookup wm_class_hash_
        (WindowProperties.instance props) ;;
    rest
  else rest.

(** [Window::findInfo] *)
Definition findInfo (props : WindowProperties.t) : AppInfo :=
  snd (findInfo_traced props).

(** [Window::update] *)
Definition Window_update (w : Window) : Window :=
  let info := findInfo (win_props w) in
  let resolved :=
    match info with
    | Some i => get_id i
    | None => WindowProperties.app_id (win_props w) +:+ ".desktop"
    end in
  {| win_id := win_id w; resolved_app_id := resolved;
     win_props := win_props w |}.

(** [Window::Window(id, props)]: the members are initialised, then
    [update()] runs. *)
Definition Window_new (id : Z) (props : WindowProperties.t) : Window :=
  Window_update
    {| win_id := id; resolved_app_id := EmptyString; win_props := props |}.

Definition getResolvedAppId (w : Window) : string := resolved_app_id w.

(** [Workspace::update]: the loop over [windows]. *)
Definition Workspace_update (w : Workspace) : Workspace :=
  let step (p : WorkspaceProperties.t) (window : Window) :=
    {| WorkspaceProperties.title := WorkspaceProperties.title p;
       WorkspaceProperties.num := WorkspaceProperties.num p;
       WorkspaceProperties.focused :=
         WorkspaceProperties.focused p
         || WindowProperties.focused (win_props window);
       WorkspaceProperties.urgent := WorkspaceProperties.urgent p;
       WorkspaceProperties.visible :=
         WorkspaceProperties.visible p
         || WindowProperties.visible (win_props window) |} in
  {| ws_id := ws_id w;
     props := fold_left step (windows w) (props w);
     windows := windows w;
     content := content w |}.

(** [Workspace::Workspace(id, props, orientation)]: the members are
    initialised, then [update()] runs. *)
Definition Workspace_new (id : Z) (p : WorkspaceProperties.t) : Workspace :=
  Workspace_update
    {| ws_id := id; props := p; windows := []; content := [] |}.

(** [Workspace::addWindow].  [std::any_of] runs over
    [windows.begin(), windows.end() - 1], the windows held before the
    [emplace_back]. *)
Definition addWindow (id : Z) (p : WindowProperties.t)
    (w : Workspace) : Workspace :=
  let back := Window_new id p in
  let repeated :=
    existsb
      (fun x => String.eqb (getResolvedAppId x) (getResolvedAppId back))
      (windows w) in
  {| ws_id := ws_id w;
     props := props w;
     windows := windows w ++ [back];
     content := if negb repeated then content w ++ [back] else content w |}.

(** [f(workspaces_.back())], the vector being non-empty. *)
Fixpoint on_back (f : Workspace -> Workspace) (l : list Workspace)
    : list Workspace :=
  match l with
  | [] => []
  | [x] => [f x]
  | x :: l' => x :: on_back f l'
  end.

(** [WorkspaceTasksImpl::buildTree], on the vector [workspaces_]. *)
Fixpoint buildTree (node : Node) (workspaces_ : list Workspace)
    {struct node} : list Workspace :=
  let t := type node in
  let id := WorkspaceTasks.id node in
  let recurse (workspaces_ : list Workspace) :=
    let workspaces_ :=
      fold_left (fun ws child => buildTree child ws)
        (nodes node) workspaces_ in
    fold_left (fun ws child => buildTree child ws)
      (floating_nodes node) workspaces_ in
  if String.eqb t "root" || String.eqb t "output" then
    recurse workspaces_
  else if String.eqb t "workspace" then
    let props := WorkspaceProperties.fromJson node in
    if String.eqb
         (StdString.substr 0 4 (WorkspaceProperties.title props))
         "__i3"
    then workspaces_
    else recurse (workspaces_ ++ [Workspace_new id props])
  else if String.eqb t "con" || String.eqb t "floating_con" then
    match app_id node with
    | Some _ =>
        if (0 <? length workspaces_)%nat then
          on_back (addWindow id (WindowProperties.fromJson node))
            workspaces_
        else workspaces_
    | None => recurse workspaces_
    end
  else workspaces_.

(** The two loops that end [buildTree]: the walk of [node["nodes"]], then
    of [node["floating_nodes"]]. *)
Definition buildTree_children (node : Node) (workspaces_ : list Workspace)
    : list Workspace :=
  fold_left (fun ws child => buildTree child ws) (floating_nodes node)
    (fold_left (fun ws child => buildTree child ws) (nodes node) workspaces_).

(** [n] is [root] or lies below it, through [nodes] or [floating_nodes]. *)
Inductive in_tree (root : Node) : Node -> Prop :=
| in_tree_root : in_tree root root
| in_tree_nodes n c :
    in_tree root n -> c ∈ nodes n -> in_tree root c
| in_tree_floating_nodes n c :
    in_tree root n -> c ∈ floating_nodes n -> in_tree root c.

(** The comparison handed to [std::sort] in [update]. *)
Definition by_num (a b : Workspace) : bool :=
  WorkspaceProperties.num (props a) <? WorkspaceProperties.num (props b).

Section Update.
(** [std::sort(first, last, comp)] of the C++ standard library. *)
Variable std_sort :
  (Workspace -> Workspace -> bool) -> list Workspace -> list Workspace.

(** [WorkspaceTasksImpl::update], as far as [workspaces_] goes. *)
Definition update (payload_ : Node) : list Workspace :=
  let workspaces_ := [] in
  let workspaces_ := buildTree payload_ workspaces_ in
  let workspaces_ := std_sort by_num workspaces_ in
  map Workspace_update workspaces_.
End Update.

(** [std::find_if(first, last, p) - first], [None] for [last]. *)
Fixpoint find_if {A : Type} (p : A -> bool) (l : list A) : option nat :=
  match l with
  | [] => None
  | x :: l' =>
      if p x then Some 0%nat
      else match find_if p l' with Some i => Some (S i) | None => None end
  end.

(** Width of [size_t] and [ssize_t]. *)
Definition SIZE_WIDTH : Z := 64.

(** [(i + delta) % workspaces_.size()] in [cycleWorkspace].  [i] is an
    [ssize_t] and [delta] an [int], so the sum is an [ssize_t]; the
    right operand is a [size_t], so the sum is converted to [size_t]
    (reduced modulo 2^SIZE_WIDTH) and the remainder is the unsigned one. *)
Definition cycle_index (i : nat) (delta : Z) (size : nat) : Z :=
  ((Z.of_nat i + delta) mod 2 ^ SIZE_WIDTH) mod Z.of_nat size.

(** *** The object state of [WorkspaceTasksImpl] *)

Inductive ipc_command_type : Type :=
| IPC_COMMAND
| IPC_GET_TREE
| IPC_OTHER (code : Z).

#[global] Instance ipc_command_type_eq_dec : EqDecision ipc_command_type.
Proof. solve_decision. Defined.

Record ipc_response : Type := mk_ipc_response {
  res_type : ipc_command_type;
  res_payload : string;
}.

Record Impl : Type := mkImpl {
  (** the calls of [ipc_.sendCmd], oldest first *)
  ipc_sent : list (ipc_command_type * string);
  payload_ : Node;
  (** [parent_.dp.emit()] calls not yet answered by [update()] *)
  dp_pending : nat;
  workspaces_ : list Workspace;
}.

(** A null [Json::Value]. *)
Definition json_null : Node :=
  mkNode EmptyString 0 EmptyString 0 false false false None
    EmptyString EmptyString 0 [] [].

Definition sendCmd (type : ipc_command_type) (payload : string)
    (st : Impl) : Impl :=
  {| ipc_sent := ipc_sent st ++ [(type, payload)];
     payload_ := payload_ st;
     dp_pending := dp_pending st;
     workspaces_ := workspaces_ st |}.

(** [getTree] *)
Definition getTree (st : Impl) : Impl := sendCmd IPC_GET_TREE EmptyString st.

(** The constructor, after the signals are connected. *)
Definition Impl_new : Impl :=
  getTree
    {| ipc_sent := []; payload_ := json_null; dp_pending := 0%nat;
       workspaces_ := [] |}.

(** [onEvent] *)
Definition onEvent (res : ipc_response) (st : Impl) : Impl := getTree st.

(** [activateWorkspace] *)
Definition activateWorkspace (num : Z) (st : Impl) : Impl :=
  sendCmd IPC_COMMAND ("workspace number " +:+ pretty num) st.

(** [activateWindow] *)
Definition activateWindow (id : Z) (st : Impl) : Impl :=
  sendCmd IPC_COMMAND ("[con_id=" +:+ pretty id +:+ "] focus") st.

(** [cycleWorkspace]; [None] is an access outside the vector. *)
Definition cycleWorkspace (delta : Z) (st : Impl) : option Impl :=
  match
    find_if (fun w => WorkspaceProperties.focused (props w)) (workspaces_ st)
  with
  | Some i =>
      let k := cycle_index i delta (length (workspaces_ st)) in
      if (0 <=? k) && (k <? Z.of_nat (length (workspaces_ st))) then
        match workspaces_ st !! Z.to_nat k with
        | Some target =>
            Some (activateWorkspace
                    (WorkspaceProperties.num (props target)) st)
        | None => None
        end
      else None
  | None => Some st
  end.

(** The directions [WorkspaceTasks::handleScroll] names in its [switch];
    [SCROLL_OTHER] stands for every other value of [SCROLL_DIR]. *)
Inductive SCROLL_DIR : Type :=
| SCROLL_UP
| SCROLL_DOWN
| SCROLL_LEFT
| SCROLL_RIGHT
| SCROLL_OTHER.

(** [WorkspaceTasks::handleScroll], on the direction [getScrollDir] gave;
    the function itself always returns [true]. *)
Definition handleScroll (direction : SCROLL_DIR) (st : Impl) : option Impl :=
  match direction with
  | SCROLL_DOWN | SCROLL_RIGHT => cycleWorkspace 1 st
  | SCROLL_UP | SCROLL_LEFT => cycleWorkspace (-1) st
  | SCROLL_OTHER => Some st
  end.

Section Controller.
(** [util::JsonParser::parse]; [None] when it throws. *)
Variable parser_parse : string -> option Node.
Variable std_sort :
  (Workspace -> Workspace -> bool) -> list Workspace -> list Workspace.

(** [onCmd] *)
Definition onCmd (res : ipc_response) (st : Impl) : Impl :=
  if decide (res_type res = IPC_GET_TREE) then
    match parser_parse (res_payload res) with
    | Some json =>
        {| ipc_sent := ipc_sent st;
           payload_ := json;
           dp_pending := S (dp_pending st);
           workspaces_ := workspaces_ st |}
    | None => st
    end
  else st.

(** [WorkspaceTasks::update], run by the dispatcher [dp]. *)
Definition WorkspaceTasks_update (st : Impl) : Impl :=
  {| ipc_sent := ipc_sent st;
     payload_ := payload_ st;
     dp_pending := Nat.pred (dp_pending st);
     workspaces_ := update std_sort (payload_ st) |}.

(** What can happen to the object once it is constructed. *)
Inductive Event : Type :=
| SignalEvent (res : ipc_response)   (* ipc_.signal_event *)
| SignalCmd (res : ipc_response)     (* ipc_.signal_cmd *)
| Dispatch.                          (* dp fires: update() *)

Definition handle (st : Impl) (ev : Event) : Impl :=
  match ev with
  | SignalEvent res => onEvent res st
  | SignalCmd res => onCmd res st
  | Dispatch => WorkspaceTasks_update st
  end.

Definition run (evs : list Event) : Impl := fold_left handle evs Impl_new.

Definition is_signal_event (ev : Event) : bool :=
  match ev with SignalEvent _ => true | _ => false end.

(** GET_TREE requests handed to the channel so far. *)
Definition tree_requests (st : Impl) : nat :=
  length (filter (fun c => bool_decide (c.1 = IPC_GET_TREE)) (ipc_sent st)).
End Controller.

End Impl.

End WorkspaceTasks.

(* ===================================================================== *)
(** ** Reference notions the properties are stated against *)
(* ===================================================================== *)

Module Reference.
Import AppInfoProvider WorkspaceTasks.

(** *** Identity resolution as an ordered list of strategies *)

(** The strategies that apply to [props], each with its outcome, in the
    documented order.  The instance lookup is part of the chain only for
    a non-empty instance string. *)
Definition strategy_chain (sys : System)
    (wm_class_hash_ : gmap string DesktopAppInfo)
    (props : WindowProperties.t) : list (Strategy * AppInfo) :=
  (if StdString.empty (WindowProperties.instance props) then []
   else [(InstanceLookup,
          AppInfoCacheService.lookup wm_class_hash_
            (WindowProperties.instance props))])
  ++ [(DirectId,
       desktop_create sys (WindowProperties.app_id props +:+ ".desktop"));
      (BamfEnv, get_app_info_from_bamf_env sys (WindowProperties.pid props));
      (Snap, get_app_info_from_snap sys (WindowProperties.pid props));
      (Flatpak, get_app_info_from_flatpak sys (WindowProperties.pid props));
      (LowerCaseId,
       desktop_create sys
         (StdString.transform_tolower (WindowProperties.app_id props)
          +:+ ".desktop"))].

(** Iterate a chain until the first strategy that yields a descriptor;
    the first component lists the strategies that were evaluated. *)
Fixpoint first_success (chain : list (Strategy * AppInfo))
    : Traced AppInfo :=
  match chain with
  | [] => ([], None)
  | (s, Some info) :: _ => ([s], Some info)
  | (s, None) :: rest =>
      let '(tr, r) := first_success rest in (s :: tr, r)
  end.

Definition missed (x : Strategy * AppInfo) : Prop := x.2 = None.

(** *** First-occurrence-wins deduplication by resolved identity *)

Fixpoint first_occurrences (seen : list string) (l : list Window)
    : list Window :=
  match l with
  | [] => []
  | x :: l' =>
      if bool_decide (resolved_app_id x ∈ seen)
      then first_occurrences seen l'
      else x :: first_occurrences (resolved_app_id x :: seen) l'
  end.

(** The buttons of a workspace are those of the first window of each
    resolved identity. *)
Definition buttons_deduplicated (w : Workspace) : Prop :=
  content w = first_occurrences [] (windows w).

(** [w0] holds the id and the properties of a workspace node of [payload]. *)
Definition from_workspace_node (payload : Node) (w0 : Workspace) : Prop :=
  exists node,
    in_tree payload node /\ type node = "workspace"
    /\ ws_id w0 = id node /\ props w0 = WorkspaceProperties.fromJson node.

(** *** The contract of [std::sort] *)

(** [comp] is a strict weak ordering. *)
Definition strict_weak_order {A : Type} (comp : A -> A -> bool) : Prop :=
  (forall a b, comp a b = true -> comp b a = false) /\
  (forall a b c, comp a b = false -> comp b c = false -> comp a c = false).

(** For a strict weak ordering the result is a rearrangement of the input
    in which no element is ordered before an earlier one.  Nothing is
    promised about the order of equivalent elements. *)
Definition std_sort_contract
    (sort : (Workspace -> Workspace -> bool) ->
            list Workspace -> list Workspace) : Prop :=
  forall comp l,
    strict_weak_order comp ->
    Permutation l (sort comp l) /\
    StronglySorted (fun a b => comp b a = false) (sort comp l).

(** Two sorting procedures meeting the contract: insertion from the
    back, placing an element before ([sort_stable]) or after
    ([sort_ties_reversed]) the elements equivalent to it. *)
Section Sorts.
Context {A : Type} (comp : A -> A -> bool).

Fixpoint insert_before (x : A) (l : list A) : list A :=
  match l with
  | [] => [x]
  | y :: l' => if comp y x then y :: insert_before x l' else x :: y :: l'
  end.

Fixpoint insert_after (x : A) (l : list A) : list A :=
  match l with
  | [] => [x]
  | y :: l' => if comp x y then x :: y :: l' else y :: insert_after x l'
  end.

Definition sort_stable (l : list A) : list A :=
  fold_right insert_before [] l.

Definition sort_ties_reversed (l : list A) : list A :=
  fold_right insert_after [] l.
End Sorts.

(** Equal-[num] workspaces keep the relative order they have in [l0]. *)
Definition stable_wrt (l0 l : list Workspace) : Prop :=
  forall n,
    filter (fun w => WorkspaceProperties.num (props w) = n) l
    = filter (fun w => WorkspaceProperties.num (props w) = n) l0.

(** *** Cache rebuild as documented: empty keys skipped, last writer wins *)
Definition rebuild_last_writer_wins (all : list DesktopAppInfo)
    : gmap string DesktopAppInfo :=
  fold_left
    (fun m d =>
       if StdString.empty (get_startup_wm_class d) then m
       else <[get_startup_wm_class d := d]> m)
    all ∅.

(** The first descriptor of [ds] whose StartupWMClass is [k]. *)
Definition first_with_class (k : string) (ds : list DesktopAppInfo)
    : option DesktopAppInfo :=
  head (filter (fun d => get_startup_wm_class d = k) ds).

(** Three desktop files: two declaring the class "app1", one declaring none. *)
Definition chrome_app1 : DesktopAppInfo :=
  mkDesktopAppInfo "chrome-app1-Default.desktop" "app1".
Definition other_app1 : DesktopAppInfo :=
  mkDesktopAppInfo "org.example.Other.desktop" "app1".
Definition no_class : DesktopAppInfo :=
  mkDesktopAppInfo "org.example.Plain.desktop" EmptyString.

(** *** Fixtures *)

(** A system with no desktop files and no readable /proc entries. *)
Definition bare_system : System :=
  {| desktop_create := fun _ => None;
     desktop_create_from_filename := fun _ => None;
     desktop_get_all := [];
     proc_attr_current := fun _ => None;
     proc_environ := fun _ => [];
     flatpak_is_regular_file := fun _ => Some false;
     flatpak_application_name := fun _ => None |}.

(** A system whose registry is [all]; [create] finds a file by its id. *)
Definition system_with (all : list DesktopAppInfo) : System :=
  {| desktop_create := fun i =>
       head (filter (fun d => bool_decide (get_id d = i)) all);
     desktop_create_from_filename := fun _ => None;
     desktop_get_all := all;
     proc_attr_current := fun _ => None;
     proc_environ := fun _ => [];
     flatpak_is_regular_file := fun _ => Some false;
     flatpak_application_name := fun _ => None |}.

Definition workspace_node (id num : Z) (name : string) (focused urgent visible : bool)
    (children : list Node) : Node :=
  mkNode "workspace" id name num focused urgent visible None
    EmptyString EmptyString 0 children [].

Definition wayland_window (id : Z) (app : string) (pid : Z)
    (focused urgent visible : bool) : Node :=
  mkNode "con" id app 0 focused urgent visible (Some (Some app))
    EmptyString EmptyString pid [] [].

Definition xwayland_window (id : Z) (class instance : string) (pid : Z) : Node :=
  mkNode "con" id class 0 false false false (Some None)
    class instance pid [] [].

Definition root_node (children : list Node) : Node :=
  mkNode "root" 1 "root" 0 false false false None
    EmptyString EmptyString 0 children [].

(** One workspace holding two windows of the same application. *)
Definition firefox_twice : Node :=
  root_node
    [workspace_node 3 1 "1" false false false
       [wayland_window 10 "firefox" 100 false false false;
        wayland_window 11 "firefox" 100 true false true]].

(** Two named workspaces (sway gives them [num] -1) after a numbered one. *)
Definition named_pair : Node :=
  root_node
    [workspace_node 3 2 "2" false false false [];
     workspace_node 4 (-1) "a" false false false [];
     workspace_node 5 (-1) "b" true false true []].

(** A scratchpad workspace holding a window. *)
Definition scratch_node : Node :=
  workspace_node 5 (-1) "__i3_scratch" false false false
    [wayland_window 13 "kitty" 300 true true true].

(** A workspace reported as not urgent, holding an urgent window. *)
Definition urgent_window_tree : Node :=
  root_node
    [workspace_node 3 1 "1" false false false
       [wayland_window 10 "firefox" 100 false true false]].

(** sway's tree shape: the scratchpad under its own output, then a real
    output with workspace 2 (one window) listed before the empty
    workspace 1. *)
Definition sway_tree : Node :=
  root_node
    [mkNode "output" 2 "__i3" 0 false false false None
       EmptyString EmptyString 0 [scratch_node] [];
     mkNode "output" 6 "eDP-1" 0 false false false None
       EmptyString EmptyString 0
       [workspace_node 7 2 "2" false false false
          [wayland_window 10 "firefox" 100 true false true];
        workspace_node 8 1 "1" false false true []]
       []].

(** Three workspaces, the first one focused. *)
Definition three_workspaces : Node :=
  root_node
    [workspace_node 3 1 "1" true false true [];
     workspace_node 4 2 "2" false false false [];
     workspace_node 5 3 "3" false false false []].

(** The object after the answer carrying [three_workspaces] is displayed. *)
Definition scroll_state : Impl :=
  run bare_system ∅ (fun _ => Some three_workspaces) sort_stable
    [SignalCmd (mk_ipc_response IPC_GET_TREE EmptyString); Dispatch].

(** *** Notions for the further properties *)

(** The node is of type "con" or "floating_con". *)
Definition is_con (node : Node) : bool :=
  String.eqb (type node) "con" || String.eqb (type node) "floating_con".

(** The node is of a type the walk descends through or builds from. *)
Definition is_structural (node : Node) : bool :=
  String.eqb (type node) "root" || String.eqb (type node) "output"
  || String.eqb (type node) "workspace".

(** The window nodes at and below a container, depth first, [nodes] before
    [floating_nodes]: a container with an [app_id] member is a window and
    what lies below it is not looked at. *)
Fixpoint window_leaves (node : Node) : list Node :=
  if is_con node then
    match app_id node with
    | Some _ => [node]
    | None =>
        flat_map window_leaves (nodes node)
        ++ flat_map window_leaves (floating_nodes node)
    end
  else [].

(** Walking the node meets no root, output or workspace node. *)
Fixpoint containers_only (node : Node) : bool :=
  if is_structural node then false
  else if is_con node then
    match app_id node with
    | Some _ => true
    | None =>
        forallb containers_only (nodes node)
        && forallb containers_only (floating_nodes node)
    end
  else true.

(** The window [addWindow] builds for a window node. *)
Definition window_of (sys : System)
    (wm_class_hash_ : gmap string DesktopAppInfo) (leaf : Node) : Window :=
  Window_new sys wm_class_hash_ (id leaf) (WindowProperties.fromJson leaf).

(** [w'] is [w] with windows appended, if any. *)
Definition keeps (w w' : Workspace) : Prop :=
  ws_id w' = ws_id w /\ props w' = props w
  /\ windows w `prefix_of` windows w'.

(** [ws'] holds the workspaces of [ws], each kept in place, then further
    ones. *)
Definition extends (ws ws' : list Workspace) : Prop :=
  exists kept added, ws' = kept ++ added /\ Forall2 keeps ws kept.

(** The signal is a GET_TREE answer whose payload parses. *)
Definition good_answer (parse : string -> option Node) (ev : Event) : bool :=
  match ev with
  | SignalCmd res =>
      bool_decide (res_type res = IPC_GET_TREE)
      && bool_decide (is_Some (parse (res_payload res)))
  | _ => false
  end.

(** A system whose only readable data are the security label and the
    environment of process 4242; [create] finds firefox_firefox.desktop
    only and [create_from_filename] finds every file. *)
Definition labelled_system : System :=
  {| desktop_create := fun i =>
       if String.eqb i "firefox_firefox.desktop"
       then Some (mkDesktopAppInfo i EmptyString) else None;
     desktop_create_from_filename :=
       fun f => Some (mkDesktopAppInfo f EmptyString);
     desktop_get_all := [];
     proc_attr_current := fun pid =>
       if pid =? 4242 then Some "snap.firefox.firefox (enforce)" else None;
     proc_environ := fun pid =>
       if pid =? 4242 then
         ["HOME=/home/u";
          "BAMF_DESKTOP_FILE_HINT=/usr/share/applications/code.desktop";
          "BAMF_DESKTOP_FILE_HINT=/usr/share/applications/other.desktop"]
       else [];
     flatpak_is_regular_file := fun _ => Some false;
     flatpak_application_name := fun _ => None |}.

(** A registry listing a descriptor that [create] does not find. *)
Definition stale_system : System :=
  {| desktop_create := fun _ => None;
     desktop_create_from_filename := fun _ => None;
     desktop_get_all := [chrome_app1];
     proc_attr_current := fun _ => None;
     proc_environ := fun _ => [];
     flatpak_is_regular_file := fun _ => Some false;
     flatpak_application_name := fun _ => None |}.

(** A workspace whose windows lie at several depths, one of them floating. *)
Definition nested_workspace : Node :=
  mkNode "workspace" 3 "1" 1 false false false None EmptyString EmptyString 0
    [mkNode "con" 20 EmptyString 0 false false false None
       EmptyString EmptyString 0
       [wayland_window 21 "kitty" 300 false false false;
        xwayland_window 22 "Slack" "slack" 301]
       []]
    [wayland_window 23 "mpv" 302 true false true].

End Reference.

(* ===================================================================== *)
(** ** Properties *)
(* ===================================================================== *)

Import AppInfoProvider WorkspaceTasks Reference.

(** *** Identity resolution *)

Section Resolution.
Variable sys : System.
Variable wm_class_hash_ : gmap string DesktopAppInfo.

Lemma first_success_hit (pre post : list (Strategy * AppInfo)) s d :
  Forall missed pre ->
  first_success (pre ++ (s, Some d) :: post) = (map fst pre ++ [s], Some d).
Proof.
  induction 1 as [|[s' r] pre Hr _ IH]; simpl; [reflexivity|].
  unfold missed in Hr; simpl in Hr; subst r. now rewrite IH.
Qed.

Lemma first_success_all_missed (chain : list (Strategy * AppInfo)) :
  Forall missed chain -> first_success chain = (map fst chain, None).
Proof.
  induction 1 as [|[s' r] pre Hr _ IH]; simpl; [reflexivity|].
  unfold missed in Hr; simpl in Hr; subst r. now rewrite IH.
Qed.

Lemma first_success_None (chain : list (Strategy * AppInfo)) :
  (first_success chain).2 = None -> Forall missed chain.
Proof.
  induction chain as [|[s [d|]] rest IH]; simpl; intros H.
  - constructor.
  - discriminate.
  - destruct (first_success rest) as [tr r]; simpl in *.
    constructor; [reflexivity | now apply IH].
Qed.

Lemma findInfo_traced_chain (props : WindowProperties.t) :
  findInfo_traced sys wm_class_hash_ props
  = first_success (strategy_chain sys wm_class_hash_ props).
Proof.
  unfold findInfo_traced, strategy_chain, try_lookup, last_lookup.
  destruct (StdString.empty (WindowProperties.instance props)); simpl;
    repeat match goal with
           | |- context [match ?e with Some _ => _ | None => _ end] =>
               destruct e; simpl; try reflexivity
           end.
Qed.

Lemma findInfo_None_iff (props : WindowProperties.t) :
  findInfo sys wm_class_hash_ props = None
  <-> Forall missed (strategy_chain sys wm_class_hash_ props).
Proof.
  unfold findInfo. rewrite findInfo_traced_chain. split.
  - apply first_success_None.
  - intros H. now rewrite first_success_all_missed.
Qed.

(** C1.  [findInfo] runs the strategies in the fixed order: cache lookup
    by the non-empty instance string, direct id, BAMF environment hint,
    snap label, flatpak manifest, lower-cased id.  It is the iteration of
    that chain up to the first success: when a strategy yields a
    descriptor after all earlier ones missed, exactly the strategies up to
    and including it are evaluated and its descriptor is the result; when
    all miss, all are evaluated and the result is null.  In particular a
    cached non-empty instance string resolves from the cache with no other
    strategy evaluated. *)
Theorem findInfo_ordered_short_circuit (props : WindowProperties.t) :
  let chain := strategy_chain sys wm_class_hash_ props in
  map fst chain
  = (if StdString.empty (WindowProperties.instance props) then []
     else [InstanceLookup])
    ++ [DirectId; BamfEnv; Snap; Flatpak; LowerCaseId]
  /\ findInfo_traced sys wm_class_hash_ props = first_success chain
  /\ (forall pre s d post,
        chain = pre ++ (s, Some d) :: post ->
        Forall missed pre ->
        findInfo_traced sys wm_class_hash_ props
        = (map fst pre ++ [s], Some d))
  /\ (Forall missed chain ->
      findInfo_traced sys wm_class_hash_ props = (map fst chain, None))
  /\ (forall d,
        StdString.empty (WindowProperties.instance props) = false ->
        AppInfoCacheService.lookup wm_class_hash_
          (WindowProperties.instance props) = Some d ->
        findInfo_traced sys wm_class_hash_ props
        = ([InstanceLookup], Some d)).
Proof.
  intros chain. split; [|split; [|split; [|split]]].
  - unfold chain, strategy_chain.
    now destruct (StdString.empty (WindowProperties.instance props)).
  - apply findInfo_traced_chain.
  - intros pre s d post Hc Hpre.
    rewrite findInfo_traced_chain. fold chain. rewrite Hc.
    now apply first_success_hit.
  - intros Hall. rewrite findInfo_traced_chain.
    now apply first_success_all_missed.
  - intros d Hne Hd. unfold findInfo_traced, try_lookup.
    now rewrite Hne, Hd.
Qed.

(** C2.  A constructed window always carries a resolved identity: the id
    of the descriptor [findInfo] found, and, when every strategy misses,
    [props.app_id] followed by ".desktop", which is never the empty
    string, whatever [app_id] and [pid] are. *)
Theorem Window_new_resolved (id : Z) (props : WindowProperties.t) :
  let w := Window_new sys wm_class_hash_ id props in
  win_id w = id /\ win_props w = props
  /\ resolved_app_id w
     = match findInfo sys wm_class_hash_ props with
       | Some info => get_id info
       | None => WindowProperties.app_id props +:+ ".desktop"
       end
  /\ (Forall missed (strategy_chain sys wm_class_hash_ props) ->
      resolved_app_id w = WindowProperties.app_id props +:+ ".desktop"
      /\ resolved_app_id w <> EmptyString).
Proof.
  intros w. do 3 (split; [reflexivity|]).
  intros Hall. apply findInfo_None_iff in Hall.
  unfold w, Window_new, Window_update; simpl. rewrite Hall. split.
  - reflexivity.
  - destruct (WindowProperties.app_id props); discriminate.
Qed.

End Resolution.

(** The scenario of C1: instance "app1" is cached; only the cache is consulted. *)
Lemma findInfo_ordered_short_circuit_witness :
  let d := mkDesktopAppInfo "chrome-app1-Default.desktop" "app1" in
  findInfo_traced bare_system {["app1" := d]}
    (WindowProperties.fromJson (xwayland_window 12 "Slack" "app1" 4242))
  = ([InstanceLookup], Some d).
Proof.
  intros d.
  exact (proj2 (proj2 (proj2 (proj2
           (findInfo_ordered_short_circuit bare_system {["app1" := d]}
              (WindowProperties.fromJson
                 (xwayland_window 12 "Slack" "app1" 4242))))))
           d eq_refl eq_refl).
Defined.

(** C2 at an empty [app_id] and pid 0 on a system where nothing resolves. *)
Lemma Window_new_resolved_witness :
  resolved_app_id
    (Window_new bare_system ∅ 7
       (WindowProperties.fromJson (wayland_window 7 "" 0 false false false)))
  = ".desktop".
Proof.
  refine (proj1 (proj2 (proj2 (proj2
            (Window_new_resolved bare_system ∅ 7
               (WindowProperties.fromJson
                  (wayland_window 7 "" 0 false false false))))) _)).
  repeat constructor.
Defined.

(** *** Sorting procedures that meet the contract of [std::sort] *)

Section SortFacts.
Context {A : Type} (comp : A -> A -> bool).
Hypothesis comp_swo : strict_weak_order comp.

Let ordered (a b : A) : Prop := comp b a = false.

Lemma insert_before_perm x l : Permutation (x :: l) (insert_before comp x l).
Proof.
  induction l as [|y l IH]; simpl; [reflexivity|].
  destruct (comp y x); [|reflexivity].
  rewrite <- IH. apply perm_swap.
Qed.

Lemma insert_after_perm x l : Permutation (x :: l) (insert_after comp x l).
Proof.
  induction l as [|y l IH]; simpl; [reflexivity|].
  destruct (comp x y); [reflexivity|].
  rewrite <- IH. apply perm_swap.
Qed.

Lemma ordered_below x y l :
  ordered x y -> Forall (ordered y) l -> Forall (ordered x) l.
Proof.
  destruct comp_swo as [_ Htrans]. unfold ordered. intros Hxy Hl.
  eapply Forall_impl; [exact Hl|].
  intros z Hyz. exact (Htrans z y x Hyz Hxy).
Qed.

Lemma insert_before_sorted x l :
  StronglySorted ordered l -> StronglySorted ordered (insert_before comp x l).
Proof.
  destruct comp_swo as [Hasym _].
  induction 1 as [|y l Hl IH Hy]; simpl.
  - repeat constructor.
  - destruct (comp y x) eqn:E.
    + constructor; [exact IH|].
      rewrite <- insert_before_perm. constructor; [|exact Hy].
      unfold ordered. now apply Hasym.
    + constructor; [now constructor|].
      constructor; [exact E|]. now apply ordered_below with y.
Qed.

Lemma insert_after_sorted x l :
  StronglySorted ordered l -> StronglySorted ordered (insert_after comp x l).
Proof.
  destruct comp_swo as [Hasym _].
  induction 1 as [|y l Hl IH Hy]; simpl.
  - repeat constructor.
  - destruct (comp x y) eqn:E.
    + assert (Hxy : ordered x y) by (unfold ordered; now apply Hasym).
      constructor; [now constructor|].
      constructor; [exact Hxy|]. now apply ordered_below with y.
    + constructor; [exact IH|].
      rewrite <- insert_after_perm. constructor; [exact E | exact Hy].
Qed.

Lemma sort_stable_meets l :
  Permutation l (sort_stable comp l)
  /\ StronglySorted ordered (sort_stable comp l).
Proof.
  induction l as [|x l [IHp IHs]]; simpl.
  - split; constructor.
  - split.
    + rewrite <- insert_before_perm. now constructor.
    + now apply insert_before_sorted.
Qed.

Lemma sort_ties_reversed_meets l :
  Permutation l (sort_ties_reversed comp l)
  /\ StronglySorted ordered (sort_ties_reversed comp l).
Proof.
  induction l as [|x l [IHp IHs]]; simpl.
  - split; constructor.
  - split.
    + rewrite <- insert_after_perm. now constructor.
    + now apply insert_after_sorted.
Qed.

End SortFacts.

Lemma sort_stable_contract : std_sort_contract (@sort_stable Workspace).
Proof. intros comp l Hswo. now apply sort_stable_meets. Qed.

Lemma sort_ties_reversed_contract :
  std_sort_contract (@sort_ties_reversed Workspace).
Proof. intros comp l Hswo. now apply sort_ties_reversed_meets. Qed.

Lemma by_num_strict_weak_order : strict_weak_order by_num.
Proof.
  unfold by_num. split.
  - intros a b H. apply Z.ltb_lt in H. apply Z.ltb_ge. lia.
  - intros a b c H1 H2. apply Z.ltb_ge in H1, H2. apply Z.ltb_ge. lia.
Qed.

(** *** The tree walk *)

Lemma Node_nested_ind (P : Node -> Prop)
    (step : forall n, Forall P (nodes n) -> Forall P (floating_nodes n) -> P n) :
  forall n, P n.
Proof.
  fix IH 1. intros [t i nm nu f u v a c ins p ns fs].
  apply step; simpl.
  - induction ns as [|x ns IHns]; constructor; [apply IH | exact IHns].
  - induction fs as [|x fs IHfs]; constructor; [apply IH | exact IHfs].
Qed.

Section Tree.
Variable sys : System.
Variable wm_class_hash_ : gmap string DesktopAppInfo.

Local Abbreviation buildTree := (buildTree sys wm_class_hash_).
Local Abbreviation addWindow := (addWindow sys wm_class_hash_).
Local Abbreviation recurse := (buildTree_children sys wm_class_hash_).

(** One unfolding of [buildTree]. *)
Lemma buildTree_unfold (node : Node) (workspaces_ : list Workspace) :
  buildTree node workspaces_
  = let t := type node in
    if String.eqb t "root" || String.eqb t "output" then
      recurse node workspaces_
    else if String.eqb t "workspace" then
      if String.eqb (StdString.substr 0 4 (name node)) "__i3"
      then workspaces_
      else recurse node
             (workspaces_
              ++ [Workspace_new (id node) (WorkspaceProperties.fromJson node)])
    else if String.eqb t "con" || String.eqb t "floating_con" then
      match app_id node with
      | Some _ =>
          if (0 <? length workspaces_)%nat then
            on_back (addWindow (id node) (WindowProperties.fromJson node))
              workspaces_
          else workspaces_
      | None => recurse node workspaces_
      end
    else workspaces_.
Proof. destruct node; reflexivity. Qed.

Lemma on_back_Forall (P : Workspace -> Prop) f l :
  (forall w, P w -> P (f w)) -> Forall P l -> Forall P (on_back f l).
Proof.
  intros Hf. induction 1 as [|x l Hx Hl IH]; simpl; [constructor|].
  destruct l as [|y l]; [repeat constructor; auto|].
  constructor; [exact Hx | exact IH].
Qed.

Section Invariant.
Variable root : Node.
Variable Inv : Workspace -> Prop.
Hypothesis Inv_new :
  forall node,
    in_tree root node ->
    String.eqb (type node) "workspace" = true ->
    String.eqb (StdString.substr 0 4 (name node)) "__i3" = false ->
    Inv (Workspace_new (id node) (WorkspaceProperties.fromJson node)).
Hypothesis Inv_add : forall i p w, Inv w -> Inv (addWindow i p w).

Lemma fold_buildTree_Forall (children : list Node) :
  Forall (fun c => forall ws, Forall Inv ws -> Forall Inv (buildTree c ws))
    children ->
  forall ws, Forall Inv ws ->
    Forall Inv (fold_left (fun ws child => buildTree child ws) children ws).
Proof.
  induction 1 as [|c cs Hc _ IH]; simpl; intros ws Hws; [exact Hws|].
  apply IH, Hc, Hws.
Qed.

(** Every workspace the walk leaves in the vector satisfies an invariant
    that holds of the workspaces created for the nodes of the tree and is
    kept by [addWindow]. *)
Lemma buildTree_Forall (node : Node) :
  in_tree root node ->
  forall ws, Forall Inv ws -> Forall Inv (buildTree node ws).
Proof.
  induction node as [node IHn IHf] using Node_nested_ind. intros Hin.
  assert (Hrec : forall ws, Forall Inv ws -> Forall Inv (recurse node ws)).
  { intros ws Hws. unfold buildTree_children.
    rewrite Forall_forall in IHn, IHf.
    apply fold_buildTree_Forall.
    { apply Forall_forall. intros c Hc.
      apply IHf; [exact Hc | now apply in_tree_floating_nodes with node]. }
    apply fold_buildTree_Forall; [|exact Hws].
    apply Forall_forall. intros c Hc.
    apply IHn; [exact Hc | now apply in_tree_nodes with node]. }
  intros ws Hws. rewrite buildTree_unfold. cbv zeta.
  destruct (String.eqb (type node) "root" || String.eqb (type node) "output");
    [now apply Hrec|].
  destruct (String.eqb (type node) "workspace") eqn:Et.
  - destruct (String.eqb (StdString.substr 0 4 (name node)) "__i3") eqn:E;
      [exact Hws|].
    apply Hrec. apply Forall_app. split; [exact Hws|].
    constructor; [now apply Inv_new | constructor].
  - destruct (String.eqb (type node) "con"
              || String.eqb (type node) "floating_con"); [|exact Hws].
    destruct (app_id node); [|now apply Hrec].
    destruct (0 <? length ws)%nat; [|exact Hws].
    apply on_back_Forall; [apply Inv_add | exact Hws].
Qed.

End Invariant.
End Tree.

(** *** What [Workspace::update] and [Workspace::addWindow] change *)

Lemma Workspace_update_props (w : Workspace) :
  props (Workspace_update w)
  = {| WorkspaceProperties.title := WorkspaceProperties.title (props w);
       WorkspaceProperties.num := WorkspaceProperties.num (props w);
       WorkspaceProperties.focused :=
         WorkspaceProperties.focused (props w)
         || existsb (fun x => WindowProperties.focused (win_props x)) (windows w);
       WorkspaceProperties.urgent := WorkspaceProperties.urgent (props w);
       WorkspaceProperties.visible :=
         WorkspaceProperties.visible (props w)
         || existsb (fun x => WindowProperties.visible (win_props x)) (windows w)
    |}.
Proof.
  unfold Workspace_update; simpl.
  generalize (props w) as p. induction (windows w) as [|x l IH]; intros p; simpl.
  - destruct p; simpl. now rewrite !orb_false_r.
  - rewrite IH; simpl. now rewrite !orb_assoc.
Qed.

Lemma Workspace_new_props (i : Z) (p : WorkspaceProperties.t) :
  props (Workspace_new i p) = p.
Proof. reflexivity. Qed.

Lemma existsb_resolved (s : string) (l : list Window) :
  existsb (fun x => String.eqb (getResolvedAppId x) s) l
  = bool_decide (s ∈ map resolved_app_id l).
Proof.
  induction l as [|x l IH]; simpl; [reflexivity|].
  rewrite IH. unfold getResolvedAppId.
  destruct (String.eqb_spec (resolved_app_id x) s) as [->|Hne]; simpl.
  - symmetry. apply bool_decide_eq_true. left.
  - apply bool_decide_ext. rewrite elem_of_cons.
    split; [now right | intros [E|?]; [now symmetry in E | assumption]].
Qed.

Lemma if_bool_decide_ext {B : Type} (P Q : Prop) `{Decision P, Decision Q}
    (a b : B) :
  (P <-> Q) ->
  (if bool_decide P then a else b) = (if bool_decide Q then a else b).
Proof. intros H1. now rewrite (bool_decide_ext P Q H1). Qed.

Lemma first_occurrences_snoc (seen : list string) (l : list Window) x :
  first_occurrences seen (l ++ [x])
  = first_occurrences seen l
    ++ (if bool_decide (resolved_app_id x ∈ seen ++ map resolved_app_id l)
        then [] else [x]).
Proof.
  revert seen. induction l as [|y l IH]; intros seen; simpl.
  - rewrite app_nil_r. now destruct (bool_decide (resolved_app_id x ∈ seen)).
  - case_bool_decide as Hy; rewrite IH.
    + f_equal. apply if_bool_decide_ext.
      rewrite !elem_of_app, elem_of_cons.
      split; [intros [?|?]; auto | intros [?|[E|?]]; auto].
      left. now rewrite E.
    + simpl. do 2 f_equal. apply if_bool_decide_ext.
      rewrite ?elem_of_cons, ?elem_of_app, ?elem_of_cons. tauto.
Qed.

Lemma first_occurrences_fresh (seen : list string) (l : list Window) :
  NoDup (map resolved_app_id (first_occurrences seen l))
  /\ (forall s, s ∈ map resolved_app_id (first_occurrences seen l) -> s ∉ seen).
Proof.
  revert seen. induction l as [|x l IH]; intros seen; simpl.
  - split; [constructor | intros s Hs; inversion Hs].
  - case_bool_decide as Hx; [apply IH|].
    destruct (IH (resolved_app_id x :: seen)) as [Hnd Hfresh]. simpl. split.
    + constructor; [|exact Hnd].
      intros Hin. apply (Hfresh _ Hin). left.
    + intros s Hs. apply elem_of_cons in Hs as [->|Hs]; [exact Hx|].
      intros Hseen. apply (Hfresh _ Hs). now right.
Qed.

Lemma first_occurrences_covers (seen : list string) (l : list Window) x :
  x ∈ l ->
  resolved_app_id x ∈ seen
  \/ exists y, y ∈ first_occurrences seen l
               /\ resolved_app_id y = resolved_app_id x.
Proof.
  revert seen. induction l as [|z l IH]; intros seen Hx; [inversion Hx|].
  simpl. apply elem_of_cons in Hx as [->|Hx].
  - case_bool_decide as Hz; [now left|].
    right. exists z. split; [left | reflexivity].
  - case_bool_decide as Hz.
    + apply IH, Hx.
    + destruct (IH (resolved_app_id z :: seen) Hx) as [Hs|(y & Hy & E)].
      * apply elem_of_cons in Hs as [Hs|Hs]; [|now left].
        right. exists z. split; [left | now symmetry].
      * right. exists y. split; [now right | exact E].
Qed.

Lemma first_occurrences_sublist (seen : list string) (l : list Window) :
  sublist (first_occurrences seen l) l.
Proof.
  revert seen. induction l as [|x l IH]; intros seen; simpl; [constructor|].
  case_bool_decide; [apply sublist_cons | apply sublist_skip]; apply IH.
Qed.

Lemma addWindow_buttons sys cache i p w :
  buttons_deduplicated w -> buttons_deduplicated (addWindow sys cache i p w).
Proof.
  unfold buttons_deduplicated, addWindow; simpl. intros Hw.
  rewrite first_occurrences_snoc, existsb_resolved, <- Hw. simpl.
  destruct (bool_decide _); simpl; [now rewrite app_nil_r | reflexivity].
Qed.

(** *** The rebuilt model *)

Lemma on_back_snoc f (ws : list Workspace) (w : Workspace) :
  on_back f (ws ++ [w]) = ws ++ [f w].
Proof.
  induction ws as [|x ws IH]; [reflexivity|].
  change ((x :: ws) ++ [w]) with (x :: (ws ++ [w])).
  change ((x :: ws) ++ [f w]) with (x :: (ws ++ [f w])).
  rewrite <- IH. simpl. destruct (ws ++ [w]) eqn:E; [|reflexivity].
  now destruct ws.
Qed.

Lemma substr_prefix (pre s : string) :
  String.eqb (StdString.substr 0 (String.length pre) s) pre = String.prefix pre s.
Proof.
  unfold StdString.substr. revert s.
  induction pre as [|a pre IH]; intros [|b s]; simpl; try reflexivity.
  rewrite IH. destruct (ascii_dec a b) as [->|Hne].
  - now rewrite Ascii.eqb_refl.
  - destruct (Ascii.eqb_spec b a) as [->|_]; [contradiction | reflexivity].
Qed.

Section Rebuild.
Variable sys : System.
Variable wm_class_hash_ : gmap string DesktopAppInfo.
Variable std_sort :
  (Workspace -> Workspace -> bool) -> list Workspace -> list Workspace.
Hypothesis std_sort_ok : std_sort_contract std_sort.

Local Abbreviation buildTree := (buildTree sys wm_class_hash_).
Local Abbreviation update := (update sys wm_class_hash_ std_sort).

(** A rebuilt workspace is a workspace of the walk, passed through
    [Workspace::update]. *)
Lemma update_elem (payload : Node) (w : Workspace) :
  w ∈ update payload ->
  exists w0, w0 ∈ buildTree payload [] /\ w = Workspace_update w0.
Proof.
  unfold WorkspaceTasks.update. intros Hw.
  apply list_elem_of_fmap in Hw as (w0 & -> & Hw0).
  exists w0. split; [|reflexivity].
  destruct (std_sort_ok by_num (buildTree payload [])
              by_num_strict_weak_order) as [Hperm _].
  now rewrite Hperm.
Qed.

Lemma update_Forall (Inv : Workspace -> Prop) (payload : Node) :
  (forall node,
     in_tree payload node ->
     String.eqb (type node) "workspace" = true ->
     String.eqb (StdString.substr 0 4 (name node)) "__i3" = false ->
     Inv (Workspace_new (id node) (WorkspaceProperties.fromJson node))) ->
  (forall i p w, Inv w -> Inv (addWindow sys wm_class_hash_ i p w)) ->
  (forall w, Inv w -> Inv (Workspace_update w)) ->
  forall w, w ∈ update payload -> Inv w.
Proof.
  intros Hnew Hadd Hupd w Hw.
  apply update_elem in Hw as (w0 & Hw0 & ->). apply Hupd.
  pose proof (buildTree_Forall sys wm_class_hash_ payload Inv Hnew Hadd
                payload (in_tree_root payload) [] (List.Forall_nil Inv))
    as Hall.
  rewrite Forall_forall in Hall. now apply Hall.
Qed.

(** C3, as the code has it.  Every window node the walk reaches below a
    workspace is stored: [addWindow] appends its window to [windows] of
    the most recent workspace whether or not its resolved identity repeats
    that of an earlier window there, and packs its button only when no
    earlier window of that workspace has the same resolved identity.  So
    after every rebuild the buttons shown in a workspace are exactly those
    of the first window of each resolved identity: they are pairwise
    distinct in identity, every stored window is represented by a button of
    its identity, and the buttons follow the order of the windows. *)
Theorem rebuild_buttons_first_occurrence :
  (forall node ws w0,
     is_con node = true ->
     app_id node <> None ->
     let window := window_of sys wm_class_hash_ node in
     exists w1,
       buildTree node (ws ++ [w0]) = ws ++ [w1]
       /\ ws_id w1 = ws_id w0 /\ props w1 = props w0
       /\ windows w1 = windows w0 ++ [window]
       /\ content w1
          = if bool_decide
                 (resolved_app_id window ∈ map resolved_app_id (windows w0))
            then content w0
            else content w0 ++ [window])
  /\ (forall payload w,
        w ∈ update payload ->
        content w = first_occurrences [] (windows w)
        /\ NoDup (map resolved_app_id (content w))
        /\ (forall x, x ∈ windows w ->
              exists y, y ∈ content w /\ resolved_app_id y = resolved_app_id x)
        /\ sublist (content w) (windows w)).
Proof.
  split.
  - intros node ws w0 Hcon Happ window.
    assert (Ht : String.eqb (type node) "root"
                 || String.eqb (type node) "output" = false
                 /\ String.eqb (type node) "workspace" = false).
    { unfold is_con in Hcon. apply orb_true_iff in Hcon as [H|H];
        apply String.eqb_eq in H; rewrite H; split; reflexivity. }
    destruct Ht as [Ht1 Ht2].
    rewrite buildTree_unfold. cbv zeta. rewrite Ht1, Ht2.
    unfold is_con in Hcon. rewrite Hcon.
    destruct (app_id node) as [a|]; [|contradiction].
    rewrite length_app. cbn [length].
    replace (0 <? length ws + 1)%nat with true
      by (symmetry; apply Nat.ltb_lt; lia).
    rewrite on_back_snoc. eexists. split; [reflexivity|].
    do 3 (split; [reflexivity|]).
    unfold addWindow; cbn [content]. rewrite existsb_resolved.
    fold window. unfold getResolvedAppId.
    change (Window_new sys wm_class_hash_ (id node)
              (WindowProperties.fromJson node)) with window.
    now destruct (bool_decide _).
  - intros payload w Hw.
    assert (Hc : buttons_deduplicated w).
    { revert w Hw. apply update_Forall.
      - intros node _ _ _. reflexivity.
      - intros i p w. apply addWindow_buttons.
      - intros w Hw. exact Hw. }
    unfold buttons_deduplicated in Hc. rewrite Hc.
    split; [reflexivity|]. split; [|split].
    + apply first_occurrences_fresh.
    + intros x Hx.
      destruct (first_occurrences_covers [] _ _ Hx) as [Hnil|Hy];
        [inversion Hnil | exact Hy].
    + apply first_occurrences_sublist.
Qed.

(** C4, as the code has it.  The rebuilt sequence is sorted by [num]
    ascending and is a rearrangement of the workspaces of the walk;
    [std::sort] settles the order of workspaces with equal [num]. *)
Theorem rebuild_sorted_by_num (payload : Node) :
  StronglySorted
    (fun a b =>
       WorkspaceProperties.num (props a) <= WorkspaceProperties.num (props b))
    (update payload)
  /\ Permutation (map Workspace_update (buildTree payload [])) (update payload).
Proof.
  unfold WorkspaceTasks.update.
  destruct (std_sort_ok by_num (buildTree payload [])
              by_num_strict_weak_order) as [Hperm Hsorted].
  split; [|now apply Permutation_map].
  clear Hperm.
  induction Hsorted as [|a l Hl IH Ha]; [constructor|].
  rewrite map_cons. constructor; [exact IH|].
  apply Forall_fmap. eapply Forall_impl; [exact Ha|].
  intros b Hab. unfold compose. rewrite !Workspace_update_props; simpl.
  unfold by_num in Hab. now apply Z.ltb_ge in Hab.
Qed.

(** C5.  Walking a workspace node whose title starts with "__i3" leaves the
    vector of workspaces as it was, whatever the node contains: no workspace
    is created for it and none of the windows below it is attached anywhere.
    No workspace of the rebuilt model has such a title. *)
Theorem scratchpad_excluded :
  (forall node ws,
     type node = "workspace" ->
     String.prefix "__i3" (name node) = true ->
     buildTree node ws = ws)
  /\ (forall payload w,
        w ∈ update payload ->
        String.prefix "__i3" (WorkspaceProperties.title (props w)) = false).
Proof.
  split.
  - intros node ws Ht Hp. rewrite buildTree_unfold. cbv zeta.
    rewrite Ht; simpl.
    rewrite (substr_prefix "__i3") , Hp. reflexivity.
  - intros payload.
    apply (update_Forall
             (fun w => String.prefix "__i3"
                         (WorkspaceProperties.title (props w)) = false)).
    + intros node _ _ H. now rewrite (substr_prefix "__i3") in H.
    + intros i p w H. exact H.
    + intros w H. now rewrite Workspace_update_props.
Qed.

End Rebuild.

(** C3 as worded fails: both windows of [firefox_twice] are stored in the
    workspace, with the same resolved identity. *)
Lemma rebuild_stores_repeated_identity :
  map (fun w => map (fun x => (win_id x, resolved_app_id x)) (windows w))
    (update bare_system ∅ sort_stable firefox_twice)
  = [[(10, "firefox.desktop"); (11, "firefox.desktop")]].
Proof. vm_compute. reflexivity. Qed.

Lemma rebuild_buttons_first_occurrence_witness :
  let w :=
    hd (Workspace_new 0 (WorkspaceProperties.fromJson json_null))
      (update bare_system ∅ sort_stable firefox_twice) in
  let second := wayland_window 11 "firefox" 100 true false true in
  map win_id (windows w) = [10; 11]
  /\ map win_id (content w) = [10]
  /\ NoDup (map resolved_app_id (content w))
  /\ exists w0 w1,
       map win_id (windows w0) = [10]
       /\ buildTree bare_system ∅ second [w0] = [w1]
       /\ map win_id (windows w1) = [10; 11]
       /\ content w1 = content w0.
Proof.
  intros w second.
  assert (Hw : w ∈ update bare_system ∅ sort_stable firefox_twice)
    by (vm_compute; left).
  destruct (rebuild_buttons_first_occurrence bare_system ∅ sort_stable
              sort_stable_contract) as [Hstep Hmodel].
  destruct (Hmodel firefox_twice w Hw) as (_ & Hnd & _).
  split; [vm_compute; reflexivity|].
  split; [vm_compute; reflexivity|].
  split; [exact Hnd|].
  pose (w0 := addWindow bare_system ∅ 10
                (WindowProperties.fromJson
                   (wayland_window 10 "firefox" 100 false false false))
                (Workspace_new 3
                   (WorkspaceProperties.mk "1" 1 false false false))).
  assert (Happ : app_id second <> None) by discriminate.
  destruct (Hstep second [] w0 eq_refl Happ)
    as (w1 & Hb & _ & _ & Hwin & Hcont).
  exists w0, w1. split; [reflexivity|]. split; [exact Hb|].
  split; [rewrite Hwin; reflexivity|].
  rewrite Hcont. reflexivity.
Defined.

(** C4 as worded fails: a sorting procedure within the contract of
    [std::sort] may exchange workspaces of equal [num]. *)
Lemma rebuild_equal_num_order_not_kept :
  std_sort_contract (@sort_ties_reversed Workspace)
  /\ map (fun w => (WorkspaceProperties.title (props w),
                    WorkspaceProperties.num (props w)))
       (map Workspace_update (buildTree bare_system ∅ named_pair []))
     = [("2", 2); ("a", -1); ("b", -1)]
  /\ map (fun w => (WorkspaceProperties.title (props w),
                    WorkspaceProperties.num (props w)))
       (update bare_system ∅ sort_ties_reversed named_pair)
     = [("b", -1); ("a", -1); ("2", 2)]
  /\ ~ stable_wrt
         (map Workspace_update (buildTree bare_system ∅ named_pair []))
         (update bare_system ∅ sort_ties_reversed named_pair).
Proof.
  split; [exact sort_ties_reversed_contract|].
  split; [vm_compute; reflexivity|].
  split; [vm_compute; reflexivity|].
  intros H. specialize (H (-1)). vm_compute in H. discriminate H.
Qed.

Lemma rebuild_sorted_by_num_witness :
  StronglySorted
    (fun a b =>
       WorkspaceProperties.num (props a) <= WorkspaceProperties.num (props b))
    (update bare_system ∅ sort_stable named_pair)
  /\ Permutation
       (map Workspace_update (buildTree bare_system ∅ named_pair []))
       (update bare_system ∅ sort_stable named_pair).
Proof.
  exact (rebuild_sorted_by_num bare_system ∅ sort_stable sort_stable_contract
           named_pair).
Defined.

(** On [sway_tree] the model holds workspace 1, with the flags reported for
    it, before workspace 2, which is focused through its window; the
    scratchpad and its window are absent. *)
Example rebuild_sway_tree :
  map (fun w => (WorkspaceProperties.title (props w),
                 WorkspaceProperties.focused (props w),
                 WorkspaceProperties.visible (props w),
                 map win_id (windows w)))
    (update bare_system ∅ sort_stable sway_tree)
  = [("1", false, true, []); ("2", true, true, [10])].
Proof. vm_compute. reflexivity. Qed.

Lemma scratchpad_excluded_witness :
  let ws := [Workspace_new 3
               (WorkspaceProperties.mk "1" 1 true false true)] in
  buildTree bare_system ∅ scratch_node ws = ws.
Proof.
  intros ws.
  exact (proj1 (scratchpad_excluded bare_system ∅ sort_stable
                  sort_stable_contract)
           scratch_node ws eq_refl eq_refl).
Defined.

(** *** Workspace flags after a rebuild *)


Section RebuildFlags.
Variable sys : System.
Variable wm_class_hash_ : gmap string DesktopAppInfo.
Variable std_sort :
  (Workspace -> Workspace -> bool) -> list Workspace -> list Workspace.
Hypothesis std_sort_ok : std_sort_contract std_sort.

Local Abbreviation buildTree := (buildTree sys wm_class_hash_).
Local Abbreviation update := (update sys wm_class_hash_ std_sort).

(** Until [update] runs [Workspace::update], a workspace of the walk holds
    the properties read from its node. *)
Lemma buildTree_props_from_node (payload : Node) :
  Forall (from_workspace_node payload) (buildTree payload []).
Proof.
  apply buildTree_Forall with payload; [| |constructor|constructor].
  - intros node Hin Ht _. exists node.
    apply String.eqb_eq in Ht. repeat split; assumption.
  - intros i p w H. exact H.
Qed.

Lemma update_origin (payload : Node) (w : Workspace) :
  w ∈ update payload ->
  exists node w0,
    in_tree payload node /\ type node = "workspace"
    /\ w0 ∈ buildTree payload []
    /\ ws_id w0 = id node
    /\ props w0 = WorkspaceProperties.fromJson node
    /\ w = Workspace_update w0.
Proof.
  intros Hw. apply (update_elem _ _ _ std_sort_ok) in Hw as (w0 & Hw0 & ->).
  pose proof (buildTree_props_from_node payload) as Hall.
  rewrite Forall_forall in Hall.
  destruct (Hall _ Hw0) as (node & Hin & Ht & Hid & Hp).
  now exists node, w0.
Qed.

(** C6.  A rebuilt workspace comes from a workspace node of the snapshot;
    its [focused] flag is the node's [focused] or-ed with the [focused]
    flags of all windows stored in it, and likewise [visible]; with no
    window stored, its properties are the node's, unchanged. *)
Theorem rebuild_focused_visible_or_reduced (payload : Node) (w : Workspace) :
  w ∈ update payload ->
  exists node,
    in_tree payload node /\ type node = "workspace"
    /\ ws_id w = id node
    /\ WorkspaceProperties.title (props w) = name node
    /\ WorkspaceProperties.focused (props w)
       = focused node
         || existsb (fun x => WindowProperties.focused (win_props x)) (windows w)
    /\ WorkspaceProperties.visible (props w)
       = visible node
         || existsb (fun x => WindowProperties.visible (win_props x)) (windows w)
    /\ (windows w = [] -> props w = WorkspaceProperties.fromJson node).
Proof.
  intros Hw.
  apply update_origin in Hw as (node & w0 & Hin & Ht & _ & Hid & Hp & ->).
  exists node. rewrite Workspace_update_props, Hp; simpl.
  repeat split; try assumption. intros ->; simpl. now rewrite !orb_false_r.
Qed.

(** C7, as the code has it.  [Workspace::update] reduces [focused] and
    [visible] only: the [urgent] flag of a rebuilt workspace is the one its
    node reports, whatever the [urgent] flags of its windows. *)
Theorem rebuild_urgent_verbatim (payload : Node) (w : Workspace) :
  w ∈ update payload ->
  exists node,
    in_tree payload node /\ type node = "workspace"
    /\ ws_id w = id node
    /\ WorkspaceProperties.title (props w) = name node
    /\ WorkspaceProperties.urgent (props w) = urgent node.
Proof.
  intros Hw.
  apply update_origin in Hw as (node & w0 & Hin & Ht & _ & Hid & Hp & ->).
  exists node. rewrite Workspace_update_props, Hp; simpl. now repeat split.
Qed.

End RebuildFlags.

Lemma rebuild_focused_visible_or_reduced_witness :
  let w :=
    hd (Workspace_new 0 (WorkspaceProperties.fromJson json_null))
      (update bare_system ∅ sort_stable firefox_twice) in
  WorkspaceProperties.focused (props w) = true
  /\ exists node,
       in_tree firefox_twice node /\ type node = "workspace"
       /\ ws_id w = id node
       /\ WorkspaceProperties.title (props w) = name node
       /\ WorkspaceProperties.focused (props w)
          = focused node
            || existsb (fun x => WindowProperties.focused (win_props x))
                 (windows w)
       /\ WorkspaceProperties.visible (props w)
          = visible node
            || existsb (fun x => WindowProperties.visible (win_props x))
                 (windows w)
       /\ (windows w = [] -> props w = WorkspaceProperties.fromJson node).
Proof.
  intros w. split; [vm_compute; reflexivity|].
  apply (rebuild_focused_visible_or_reduced bare_system ∅ sort_stable
           sort_stable_contract firefox_twice w).
  vm_compute. left.
Defined.

(** C7 as worded fails: the workspace of [urgent_window_tree] is reported
    not urgent and stays so, although its window is urgent. *)
Lemma rebuild_urgent_not_or_reduced :
  map (fun w => (WorkspaceProperties.urgent (props w),
                 map (fun x => WindowProperties.urgent (win_props x))
                   (windows w)))
    (update bare_system ∅ sort_stable urgent_window_tree)
  = [(false, [true])].
Proof. vm_compute. reflexivity. Qed.

Lemma rebuild_urgent_verbatim_witness :
  let w :=
    hd (Workspace_new 0 (WorkspaceProperties.fromJson json_null))
      (update bare_system ∅ sort_stable urgent_window_tree) in
  exists node,
    in_tree urgent_window_tree node /\ type node = "workspace"
    /\ ws_id w = id node
    /\ WorkspaceProperties.title (props w) = name node
    /\ WorkspaceProperties.urgent (props w) = urgent node.
Proof.
  intros w.
  apply (rebuild_urgent_verbatim bare_system ∅ sort_stable
           sort_stable_contract urgent_window_tree w).
  vm_compute. left.
Defined.

(** *** The cache of StartupWMClass *)

Lemma emplace_lookup k v (m : gmap string DesktopAppInfo) k' :
  AppInfoCacheService.emplace k v m !! k'
  = match m !! k' with
    | Some d => Some d
    | None => if decide (k = k') then Some v else None
    end.
Proof.
  unfold AppInfoCacheService.emplace.
  destruct (m !! k) as [d|] eqn:Hk.
  - destruct (m !! k') as [d'|] eqn:Hk'; [reflexivity|].
    case_decide; [congruence | reflexivity].
  - rewrite lookup_insert. case_decide as E.
    + subst k'. now rewrite Hk.
    + now destruct (m !! k').
Qed.

Lemma load_loop_first_writer (sys : System) infos ds :
  Forall2 (fun info d => desktop_create sys (get_id info) = Some d) infos ds ->
  forall m,
  exists m',
    AppInfoCacheService.load_loop sys infos m = Some m'
    /\ forall k,
         m' !! k = match m !! k with
                   | Some d => Some d
                   | None => first_with_class k ds
                   end.
Proof.
  induction 1 as [|info d infos ds Hd _ IH]; intros m; simpl.
  - exists m. split; [reflexivity|]. intros k. now destruct (m !! k).
  - rewrite Hd.
    destruct (IH (AppInfoCacheService.emplace (get_startup_wm_class d) d m))
      as (m' & Hm' & Hlook).
    exists m'. split; [exact Hm'|]. intros k.
    rewrite Hlook, emplace_lookup. unfold first_with_class.
    destruct (m !! k); [reflexivity|].
    rewrite filter_cons.
    now destruct (decide (get_startup_wm_class d = k)).
Qed.

(** C8, as the code has it.  When [create] finds each listed descriptor,
    [load] ends with a table in which every key, the empty one included,
    is bound to the first listed descriptor declaring it as StartupWMClass,
    and to nothing when no descriptor declares it: [emplace] keeps the
    entry already stored, so the first writer wins.  A key has at most one
    descriptor, [lookup] being a function of the table. *)
Theorem load_first_writer_wins (sys : System) (ds : list DesktopAppInfo) :
  Forall2 (fun info d => desktop_create sys (get_id info) = Some d)
    (desktop_get_all sys) ds ->
  exists m,
    AppInfoCacheService.load sys = Some m
    /\ forall k, AppInfoCacheService.lookup m k = first_with_class k ds.
Proof.
  intros Hall. unfold AppInfoCacheService.load, AppInfoCacheService.lookup.
  destruct (load_loop_first_writer sys _ _ Hall ∅) as (m & Hm & Hlook).
  exists m. split; [exact Hm|]. intros k. now rewrite Hlook, lookup_empty.
Qed.

Lemma load_first_writer_wins_witness :
  exists m,
    AppInfoCacheService.load (system_with [chrome_app1; other_app1; no_class])
    = Some m
    /\ forall k,
         AppInfoCacheService.lookup m k
         = first_with_class k [chrome_app1; other_app1; no_class].
Proof.
  apply (load_first_writer_wins
           (system_with [chrome_app1; other_app1; no_class])).
  repeat constructor.
Defined.

(** C8 as worded fails: of two descriptors declaring "app1" the first one
    is kept, and the descriptor with the empty class is stored under the
    empty key; the documented rebuild would give the second and nothing. *)
Lemma load_keeps_first_and_empty_key :
  let all := [chrome_app1; other_app1; no_class] in
  (m ← AppInfoCacheService.load (system_with all);
   Some (AppInfoCacheService.lookup m "app1",
         AppInfoCacheService.lookup m EmptyString))
  = Some (Some chrome_app1, Some no_class)
  /\ rebuild_last_writer_wins all !! "app1" = Some other_app1
  /\ rebuild_last_writer_wins all !! EmptyString = None
  /\ AppInfoCacheService.load (system_with all)
     <> Some (rebuild_last_writer_wins all).
Proof.
  intros all. split; [vm_compute; reflexivity|].
  split; [vm_compute; reflexivity|].
  split; [vm_compute; reflexivity|].
  intros H.
  assert (E : (m ← AppInfoCacheService.load (system_with all); m !! "app1")
              = Some other_app1).
  { rewrite H. vm_compute. reflexivity. }
  vm_compute in E. discriminate E.
Qed.

(** *** Requests for the tree *)

Section Requests.
Variable sys : System.
Variable wm_class_hash_ : gmap string DesktopAppInfo.
Variable parser_parse : string -> option Node.
Variable std_sort :
  (Workspace -> Workspace -> bool) -> list Workspace -> list Workspace.

Local Abbreviation handle :=
  (handle sys wm_class_hash_ parser_parse std_sort).
Local Abbreviation run := (run sys wm_class_hash_ parser_parse std_sort).

Lemma tree_requests_getTree (st : Impl) :
  tree_requests (getTree st) = S (tree_requests st).
Proof.
  unfold tree_requests, getTree, sendCmd; simpl.
  rewrite filter_app, length_app. simpl. lia.
Qed.

Lemma tree_requests_handle (st : Impl) (ev : Event) :
  tree_requests (handle st ev)
  = (tree_requests st + if is_signal_event ev then 1 else 0)%nat.
Proof.
  destruct ev as [res|res|]; unfold WorkspaceTasks.handle.
  - unfold onEvent. rewrite tree_requests_getTree. simpl. lia.
  - unfold onCmd. destruct (decide (res_type res = IPC_GET_TREE)); [|simpl; lia].
    destruct (parser_parse (res_payload res)); unfold tree_requests; simpl; lia.
  - unfold tree_requests; simpl. lia.
Qed.

Lemma tree_requests_fold (evs : list Event) (st : Impl) :
  tree_requests (fold_left handle evs st)
  = (tree_requests st + length (filter is_signal_event evs))%nat.
Proof.
  revert st. induction evs as [|ev evs IH]; intros st; simpl; [lia|].
  rewrite IH, tree_requests_handle, filter_cons.
  destruct (is_signal_event ev); simpl; lia.
Qed.

(** C9, as the code has it.  [onEvent] asks for the tree whatever the state
    of the object: each notification appends one GET_TREE request to those
    sent, also while an earlier request is unanswered or an answer awaits
    [update].  After the constructor and any sequence of signals the
    requests sent number one more than the notifications received. *)
Theorem onEvent_always_requests :
  (forall res st,
     ipc_sent (onEvent res st) = ipc_sent st ++ [(IPC_GET_TREE, EmptyString)]
     /\ dp_pending (onEvent res st) = dp_pending st)
  /\ (forall evs,
        tree_requests (run evs) = S (length (filter is_signal_event evs))).
Proof.
  split.
  - intros res st. split; reflexivity.
  - intros evs. unfold WorkspaceTasks.run. rewrite tree_requests_fold.
    reflexivity.
Qed.

End Requests.

(** C9 as worded fails.  After the constructor one request is unanswered; a
    notification then sends a second one.  Once the answer has arrived and
    the redisplay is pending, a further notification sends a third. *)
Lemma notification_requests_again :
  let parse := fun _ : string => Some json_null in
  let run := run bare_system ∅ parse sort_stable in
  let note := SignalEvent (mk_ipc_response (IPC_OTHER 0) EmptyString) in
  let answer := SignalCmd (mk_ipc_response IPC_GET_TREE EmptyString) in
  ipc_sent (run []) = [(IPC_GET_TREE, EmptyString)]
  /\ ipc_sent (run [note])
     = [(IPC_GET_TREE, EmptyString); (IPC_GET_TREE, EmptyString)]
  /\ dp_pending (run [note; answer]) = 1%nat
  /\ tree_requests (run [note; answer]) = 2%nat
  /\ tree_requests (run [note; answer; note]) = 3%nat.
Proof. vm_compute. repeat split; reflexivity. Qed.

(** *** Scrolling through the workspaces *)

Lemma find_if_bound {A : Type} (p : A -> bool) (l : list A) (i : nat) :
  find_if p l = Some i -> (i < length l)%nat.
Proof.
  revert i. induction l as [|x l IH]; intros i; simpl; [discriminate|].
  destruct (p x).
  - intros [= <-]. lia.
  - destruct (find_if p l) as [j|]; [|discriminate].
    intros [= <-]. specialize (IH j eq_refl). lia.
Qed.

(** C10.  Whenever some workspace is focused, the index [cycleWorkspace]
    computes from the focused index and the delta lies within the vector
    of workspaces, for delta +1, for delta -1 and for any other delta, also
    with the first workspace focused and delta -1: the element access is
    defined and [cycleWorkspace] sends its command.  (The sum is converted
    to [size_t] before the remainder is taken, which is why it cannot be
    negative; from index 0 with delta -1 it is (2^64 - 1) modulo the
    count.) *)
Theorem cycle_index_in_bounds (st : Impl) (delta : Z) (i : nat) :
  find_if (fun w => WorkspaceProperties.focused (props w)) (workspaces_ st)
  = Some i ->
  let size := length (workspaces_ st) in
  0 <= cycle_index i delta size < Z.of_nat size
  /\ (i = 0%nat -> delta = -1 ->
      cycle_index i delta size = (2 ^ 64 - 1) mod Z.of_nat size)
  /\ exists target,
       workspaces_ st !! Z.to_nat (cycle_index i delta size) = Some target
       /\ cycleWorkspace delta st
          = Some (activateWorkspace
                    (WorkspaceProperties.num (props target)) st).
Proof.
  intros Hfind size. pose proof (find_if_bound _ _ _ Hfind) as Hi.
  assert (Hk : 0 <= cycle_index i delta size < Z.of_nat size).
  { unfold cycle_index. apply Z.mod_pos_bound. subst size. lia. }
  split; [exact Hk|]. split.
  - intros -> ->. reflexivity.
  - destruct (lookup_lt_is_Some_2 (workspaces_ st)
                (Z.to_nat (cycle_index i delta size))) as [target Ht].
    { subst size. lia. }
    exists target. split; [exact Ht|].
    unfold cycleWorkspace. rewrite Hfind. fold size. cbv zeta.
    rewrite Ht.
    destruct (Z.leb_spec 0 (cycle_index i delta size)); [|lia].
    destruct (Z.ltb_spec (cycle_index i delta size) (Z.of_nat size)); [|lia].
    reflexivity.
Qed.

Lemma cycle_index_in_bounds_witness :
  find_if (fun w => WorkspaceProperties.focused (props w))
    (workspaces_ scroll_state) = Some 0%nat
  /\ cycle_index 0 (-1) 3 = 0
  /\ fmap ipc_sent (cycleWorkspace (-1) scroll_state)
     = Some [(IPC_GET_TREE, EmptyString); (IPC_COMMAND, "workspace number 1")].
Proof.
  assert (Hfind : find_if (fun w => WorkspaceProperties.focused (props w))
                    (workspaces_ scroll_state) = Some 0%nat)
    by (vm_compute; reflexivity).
  destruct (cycle_index_in_bounds scroll_state (-1) 0 Hfind)
    as (_ & _ & target & Ht & Hc).
  split; [exact Hfind|]. split; [vm_compute; reflexivity|].
  rewrite Hc. vm_compute in Ht. injection Ht as <-.
  vm_compute. reflexivity.
Defined.

(* ===================================================================== *)
(** ** Further properties *)
(* ===================================================================== *)

(** *** Strings *)

Lemma prefix_append (p s : string) : String.prefix p (p +:+ s) = true.
Proof.
  induction p as [|a p IH]; simpl; [now destruct s|].
  destruct (ascii_dec a a); [exact IH | contradiction].
Qed.

Lemma substring_all (m : nat) (s : string) :
  (String.length s <= m)%nat -> String.substring 0 m s = s.
Proof.
  revert m. induction s as [|a s IH]; intros m Hm; simpl in *.
  - now destruct m.
  - destruct m as [|m]; [lia|]. rewrite IH; [reflexivity | lia].
Qed.

Lemma substring_skip (p s : string) (m : nat) :
  String.substring (String.length p) m (p +:+ s) = String.substring 0 m s.
Proof. induction p as [|a p IH]; simpl; [reflexivity | exact IH]. Qed.

Lemma substring_head (b t : string) :
  String.substring 0 (String.length b) (b +:+ t) = b.
Proof.
  induction b as [|a b IH]; simpl; [now destruct t | now rewrite IH].
Qed.

Lemma length_append (a b : string) :
  String.length (a +:+ b) = (String.length a + String.length b)%nat.
Proof. induction a as [|c a IH]; simpl; [reflexivity | now rewrite IH]. Qed.

Lemma append_empty_r (s : string) : s +:+ EmptyString = s.
Proof.
  induction s as [|a s IH]; [reflexivity|].
  change (String a (s +:+ EmptyString) = String a s). now rewrite IH.
Qed.

Lemma find_append_hit (c : ascii) (b rest : string) :
  StdString.find c b = None ->
  StdString.find c (b +:+ String c rest) = Some (String.length b).
Proof.
  induction b as [|a b IH]; simpl.
  - intros _. now rewrite Ascii.eqb_refl.
  - destruct (Ascii.eqb a c); [discriminate|].
    destruct (StdString.find c b); [discriminate|].
    intros _. now rewrite IH.
Qed.

Lemma tolower_idempotent (c : ascii) :
  StdString.tolower (StdString.tolower c) = StdString.tolower c.
Proof. destruct c as [[] [] [] [] [] [] [] []]; vm_compute; reflexivity. Qed.

(** X7.  Lower-casing an [app_id] keeps its length, and lower-casing the
    result again changes nothing. *)
Theorem transform_tolower_idempotent (s : string) :
  String.length (StdString.transform_tolower s) = String.length s
  /\ StdString.transform_tolower (StdString.transform_tolower s)
     = StdString.transform_tolower s.
Proof.
  induction s as [|c s [IHl IHi]]; simpl; [split; reflexivity|].
  now rewrite IHl, IHi, tolower_idempotent.
Qed.

(** *** The probes by process id *)

Section ProbeFacts.
Variable sys : System.

(** X1.  For a security label "snap.<body>", alone or followed by a space
    and more text, where <body> holds no space, the snap probe is the
    lookup of <body> with every '.' turned into '_', followed by
    ".desktop". *)
Theorem snap_label_desktop_id (pid : Z) (body tail : string) :
  proc_attr_current sys pid = Some ("snap." +:+ body +:+ tail) ->
  StdString.find " " body = None ->
  tail = EmptyString \/ (exists rest, tail = String " " rest) ->
  get_app_info_from_snap sys pid
  = desktop_create sys (StdString.replace "." "_" body +:+ ".desktop").
Proof.
  intros Hlabel Hbody Htail. unfold get_app_info_from_snap.
  rewrite Hlabel. unfold StdString.starts_with, SNAP_PREFIX.
  rewrite prefix_append. cbn [negb].
  change (String.length "snap.") with 5%nat.
  assert (Hfind : StdString.find " " ("snap." +:+ body +:+ tail)
                  = match StdString.find " " (body +:+ tail) with
                    | Some n => Some (5 + n)%nat
                    | None => None
                    end).
  { change ("snap." +:+ body +:+ tail)
      with (String "s" (String "n" (String "a" (String "p"
              (String "." (body +:+ tail)))))).
    simpl. destruct (StdString.find _ (body +:+ tail)); reflexivity. }
  rewrite Hfind. destruct Htail as [->|[rest ->]].
  - rewrite append_empty_r, Hbody. unfold StdString.substr_from.
    rewrite (substring_skip "snap." body). rewrite substring_all; [reflexivity|].
    rewrite length_append. lia.
  - rewrite (find_append_hit " " body rest Hbody). unfold StdString.substr.
    replace (5 + String.length body - 5)%nat with (String.length body) by lia.
    rewrite (substring_skip "snap." (body +:+ String " " rest)).
    now rewrite substring_head.
Qed.

Lemma bamf_env_scan_cons (data : string) (rest : list string) :
  bamf_env_scan sys (data :: rest)
  = if StdString.starts_with data ENV_PREFIX then
      desktop_create_from_filename sys
        (StdString.substr_from (String.length ENV_PREFIX) data)
    else bamf_env_scan sys rest.
Proof. reflexivity. Qed.

Lemma bamf_env_scan_hit (pre post : list string) (path : string) :
  Forall (fun r => StdString.starts_with r ENV_PREFIX = false) pre ->
  bamf_env_scan sys (pre ++ (ENV_PREFIX +:+ path) :: post)
  = desktop_create_from_filename sys path.
Proof.
  induction 1 as [|r pre Hr _ IH].
  - rewrite app_nil_l, bamf_env_scan_cons.
    unfold StdString.starts_with. rewrite prefix_append.
    unfold StdString.substr_from. rewrite substring_skip.
    rewrite substring_all; [reflexivity|]. rewrite length_append. lia.
  - rewrite <- app_comm_cons, bamf_env_scan_cons, Hr. exact IH.
Qed.

(** X2.  The BAMF probe is decided by the first environment record that
    starts with "BAMF_DESKTOP_FILE_HINT=": its result is
    [create_from_filename] of the text after the '=', found or not, and
    the records after it are not considered. *)
Theorem bamf_first_hint_decides (pid : Z) (pre post : list string)
    (path : string) :
  proc_environ sys pid = pre ++ (ENV_PREFIX +:+ path) :: post ->
  Forall (fun r => StdString.starts_with r ENV_PREFIX = false) pre ->
  get_app_info_from_bamf_env sys pid = desktop_create_from_filename sys path.
Proof.
  intros Henv Hpre. unfold get_app_info_from_bamf_env. rewrite Henv.
  now apply bamf_env_scan_hit.
Qed.

(** X3.  Without a record starting with "BAMF_DESKTOP_FILE_HINT=", an
    unreadable or empty environment included, the BAMF probe misses. *)
Theorem bamf_no_hint_misses (pid : Z) :
  Forall (fun r => StdString.starts_with r ENV_PREFIX = false)
    (proc_environ sys pid) ->
  get_app_info_from_bamf_env sys pid = None.
Proof.
  unfold get_app_info_from_bamf_env.
  induction 1 as [|r rs Hr _ IH]; simpl; [reflexivity | now rewrite Hr].
Qed.

End ProbeFacts.

Lemma snap_label_desktop_id_witness :
  get_app_info_from_snap labelled_system 4242
  = Some (mkDesktopAppInfo "firefox_firefox.desktop" EmptyString).
Proof.
  exact (snap_label_desktop_id labelled_system 4242 "firefox.firefox"
           " (enforce)" eq_refl eq_refl
           (or_intror (ex_intro _ "(enforce)" eq_refl))).
Defined.

Lemma bamf_first_hint_decides_witness :
  get_app_info_from_bamf_env labelled_system 4242
  = Some (mkDesktopAppInfo "/usr/share/applications/code.desktop" EmptyString).
Proof.
  refine (bamf_first_hint_decides labelled_system 4242 ["HOME=/home/u"]
            ["BAMF_DESKTOP_FILE_HINT=/usr/share/applications/other.desktop"]
            "/usr/share/applications/code.desktop" eq_refl _).
  repeat constructor.
Defined.

Lemma bamf_no_hint_misses_witness :
  get_app_info_from_bamf_env labelled_system 1 = None.
Proof.
  apply (bamf_no_hint_misses labelled_system 1). constructor.
Defined.

(** *** More on identity resolution *)

Section ResolutionFacts.
Variable sys : System.
Variable wm_class_hash_ : gmap string DesktopAppInfo.

Lemma first_success_Some (chain : list (Strategy * AppInfo)) d :
  (first_success chain).2 = Some d -> exists s, (s, Some d) ∈ chain.
Proof.
  induction chain as [|[s [d'|]] rest IH]; simpl; intros H.
  - discriminate.
  - injection H as ->. exists s. left.
  - destruct (first_success rest) as [tr r]; simpl in *.
    destruct (IH H) as [s' Hs']. exists s'. now right.
Qed.

Lemma first_success_trace (chain : list (Strategy * AppInfo)) s :
  s ∈ (first_success chain).1 -> s ∈ map fst chain.
Proof.
  induction chain as [|[s' [d|]] rest IH]; simpl; intros H.
  - exact H.
  - apply elem_of_cons in H as [->|H]; [left | inversion H].
  - destruct (first_success rest) as [tr r]; simpl in *.
    apply elem_of_cons in H as [->|H]; [left | right; now apply IH].
Qed.

Lemma first_success_head s e (rest : list (Strategy * AppInfo)) :
  exists tr, fst (first_success ((s, e) :: rest)) = s :: tr.
Proof.
  destruct e; simpl; [now eexists|].
  destruct (first_success rest). now eexists.
Qed.

Lemma bamf_env_scan_source (records : list string) d :
  bamf_env_scan sys records = Some d ->
  exists path, desktop_create_from_filename sys path = Some d.
Proof.
  induction records as [|r rs IH]; simpl; [discriminate|].
  destruct (StdString.starts_with r ENV_PREFIX); [|exact IH].
  intros H. eexists. exact H.
Qed.

(** X4.  [findInfo] never makes a descriptor up: what it returns was found
    in the cache under the window's instance string, or returned by
    [DesktopAppInfo::create] for some id, or by [create_from_filename] for
    some path. *)
Theorem findInfo_from_system (props : WindowProperties.t) d :
  findInfo sys wm_class_hash_ props = Some d ->
  (StdString.empty (WindowProperties.instance props) = false
   /\ AppInfoCacheService.lookup wm_class_hash_
        (WindowProperties.instance props) = Some d)
  \/ (exists i, desktop_create sys i = Some d)
  \/ (exists path, desktop_create_from_filename sys path = Some d).
Proof.
  unfold findInfo. rewrite findInfo_traced_chain. intros H.
  apply first_success_Some in H as [s Hs]. unfold strategy_chain in Hs.
  apply elem_of_app in Hs as [Hs|Hs].
  - destruct (StdString.empty (WindowProperties.instance props)) eqn:E;
      [inversion Hs|].
    apply list_elem_of_singleton in Hs. injection Hs as _ Hd. now left.
  - right. rewrite !elem_of_cons, elem_of_nil in Hs.
    destruct Hs as [Hs|[Hs|[Hs|[Hs|[Hs|[]]]]]]; injection Hs as _ Hd.
    + left. eexists. symmetry. exact Hd.
    + right. symmetry in Hd. now apply bamf_env_scan_source in Hd.
    + left. symmetry in Hd. unfold get_app_info_from_snap in Hd.
      destruct (proc_attr_current sys (WindowProperties.pid props))
        as [data|]; [|discriminate Hd].
      destruct (negb (StdString.starts_with data SNAP_PREFIX));
        [discriminate Hd|].
      eexists. exact Hd.
    + left. symmetry in Hd. unfold get_app_info_from_flatpak in Hd.
      destruct (flatpak_is_regular_file sys (WindowProperties.pid props))
        as [[]|];
        destruct (flatpak_application_name sys (WindowProperties.pid props));
        try discriminate Hd; eexists; exact Hd.
    + left. eexists. symmetry. exact Hd.
Qed.

(** X5.  For a window node whose [app_id] is a string (a Wayland window),
    [fromJson] leaves the instance empty, so resolution never consults the
    cache of StartupWMClass: it starts with the direct id lookup of that
    [app_id]. *)
Theorem wayland_window_skips_cache (data : Node) (s : string) :
  app_id data = Some (Some s) ->
  let props := WindowProperties.fromJson data in
  (WindowProperties.app_id props = s)
  /\ (InstanceLookup ∉ fst (findInfo_traced sys wm_class_hash_ props))
  /\ (exists tr,
        fst (findInfo_traced sys wm_class_hash_ props) = DirectId :: tr).
Proof.
  intros Ha props.
  assert (Hi : WindowProperties.instance props = EmptyString)
    by (unfold props, WindowProperties.fromJson; now rewrite Ha).
  split; [unfold props, WindowProperties.fromJson; now rewrite Ha|].
  rewrite findInfo_traced_chain. unfold strategy_chain. rewrite Hi.
  cbn [StdString.empty app]. split.
  - intros H. apply first_success_trace in H.
    cbn [map fst] in H. rewrite !elem_of_cons, elem_of_nil in H.
    intuition discriminate.
  - apply first_success_head.
Qed.

(** X6.  The lower-cased lookup repeats the direct lookup when [app_id]
    holds no upper-case letter, and is reached only after the direct
    lookup missed: for such an [app_id] a descriptor never comes from the
    lower-case strategy. *)
Theorem lowercase_fallback_needs_uppercase (props : WindowProperties.t)
    tr d :
  StdString.transform_tolower (WindowProperties.app_id props)
  = WindowProperties.app_id props ->
  findInfo_traced sys wm_class_hash_ props = (tr, Some d) ->
  LowerCaseId ∉ tr.
Proof.
  intros Hlow. unfold findInfo_traced, try_lookup, last_lookup.
  rewrite Hlow.
  destruct (desktop_create sys (WindowProperties.app_id props +:+ ".desktop"))
    eqn:Hdirect;
  destruct (negb (StdString.empty (WindowProperties.instance props)));
  repeat match goal with
         | |- context [match ?e with Some _ => _ | None => _ end] =>
             destruct e
         end;
  intros [= <- ?]; try discriminate;
  rewrite ?elem_of_cons, elem_of_nil; intuition discriminate.
Qed.

End ResolutionFacts.

Lemma findInfo_from_system_witness :
  (StdString.empty "app1" = false
   /\ AppInfoCacheService.lookup {["app1" := chrome_app1]} "app1"
      = Some chrome_app1)
  \/ (exists i, desktop_create bare_system i = Some chrome_app1)
  \/ (exists path,
        desktop_create_from_filename bare_system path = Some chrome_app1).
Proof.
  exact (findInfo_from_system bare_system {["app1" := chrome_app1]}
           (WindowProperties.fromJson (xwayland_window 12 "Slack" "app1" 7))
           chrome_app1 eq_refl).
Defined.

Lemma wayland_window_skips_cache_witness :
  let props :=
    WindowProperties.fromJson (wayland_window 10 "app1" 7 false false false) in
  (WindowProperties.app_id props = "app1")
  /\ (InstanceLookup
      ∉ fst (findInfo_traced bare_system {["app1" := chrome_app1]} props))
  /\ (exists tr,
        fst (findInfo_traced bare_system {["app1" := chrome_app1]} props)
        = DirectId :: tr).
Proof.
  exact (wayland_window_skips_cache bare_system {["app1" := chrome_app1]}
           (wayland_window 10 "app1" 7 false false false) "app1" eq_refl).
Defined.

Lemma lowercase_fallback_needs_uppercase_witness :
  LowerCaseId ∉ [DirectId; BamfEnv].
Proof.
  exact (lowercase_fallback_needs_uppercase labelled_system ∅
           (WindowProperties.fromJson
              (wayland_window 10 "code" 4242 false false false))
           [DirectId; BamfEnv]
           (mkDesktopAppInfo "/usr/share/applications/code.desktop"
              EmptyString)
           eq_refl eq_refl).
Defined.

(** *** More on the cache of StartupWMClass *)

(** X8.  After a [load] that completes, a lookup that hits returns a
    descriptor declaring exactly the looked-up class, one that [create]
    returned for a listed id; and the class of every such descriptor is
    found by a lookup. *)
Theorem load_lookup_sound_complete (sys : System) (ds : list DesktopAppInfo) :
  Forall2 (fun info d => desktop_create sys (get_id info) = Some d)
    (desktop_get_all sys) ds ->
  exists m,
    AppInfoCacheService.load sys = Some m
    /\ (forall k d,
          AppInfoCacheService.lookup m k = Some d ->
          get_startup_wm_class d = k /\ d ∈ ds)
    /\ (forall d,
          d ∈ ds ->
          is_Some (AppInfoCacheService.lookup m (get_startup_wm_class d))).
Proof.
  intros Hall. unfold AppInfoCacheService.load, AppInfoCacheService.lookup.
  destruct (load_loop_first_writer sys _ _ Hall ∅) as (m & Hm & Hlook).
  exists m. split; [exact Hm|]. split.
  - intros k d Hd. rewrite Hlook, lookup_empty in Hd.
    apply head_Some_elem_of, list_elem_of_filter in Hd. exact Hd.
  - intros d Hd. rewrite Hlook, lookup_empty. unfold first_with_class.
    apply head_is_Some. intros Hnil.
    apply (filter_nil_not_elem_of _ _ d Hnil); [reflexivity | exact Hd].
Qed.

Lemma load_lookup_sound_complete_witness :
  exists m,
    AppInfoCacheService.load (system_with [chrome_app1; other_app1; no_class])
    = Some m
    /\ (forall k d,
          AppInfoCacheService.lookup m k = Some d ->
          get_startup_wm_class d = k
          /\ d ∈ [chrome_app1; other_app1; no_class])
    /\ (forall d,
          d ∈ [chrome_app1; other_app1; no_class] ->
          is_Some (AppInfoCacheService.lookup m (get_startup_wm_class d))).
Proof.
  apply (load_lookup_sound_complete
           (system_with [chrome_app1; other_app1; no_class])).
  repeat constructor.
Defined.

Lemma load_loop_null (sys : System) (all : list DesktopAppInfo) info :
  info ∈ all ->
  desktop_create sys (get_id info) = None ->
  forall m, AppInfoCacheService.load_loop sys all m = None.
Proof.
  induction 1 as [info all|info x all _ IH]; intros Hnull m; simpl.
  - now rewrite Hnull.
  - destruct (desktop_create sys (get_id x)); [now apply IH | reflexivity].
Qed.

(** X9.  [load] uses the result of [create] without testing it: when
    [create] returns null for the id of a listed descriptor, [load] does
    not complete, whatever else is listed. *)
Theorem load_null_descriptor (sys : System) (info : DesktopAppInfo) :
  info ∈ desktop_get_all sys ->
  desktop_create sys (get_id info) = None ->
  AppInfoCacheService.load sys = None.
Proof.
  intros Hin Hnull. unfold AppInfoCacheService.load.
  now apply load_loop_null with info.
Qed.

Lemma load_null_descriptor_witness :
  AppInfoCacheService.load stale_system = None.
Proof.
  apply (load_null_descriptor stale_system chrome_app1);
    [left | reflexivity].
Defined.

(** *** More on the tree walk *)

Lemma window_leaves_unfold (node : Node) :
  window_leaves node
  = if is_con node then
      match app_id node with
      | Some _ => [node]
      | None =>
          flat_map window_leaves (nodes node)
          ++ flat_map window_leaves (floating_nodes node)
      end
    else [].
Proof. destruct node; reflexivity. Qed.

Lemma containers_only_unfold (node : Node) :
  containers_only node
  = if is_structural node then false
    else if is_con node then
      match app_id node with
      | Some _ => true
      | None =>
          forallb containers_only (nodes node)
          && forallb containers_only (floating_nodes node)
      end
    else true.
Proof. destruct node; reflexivity. Qed.

Section TreeFacts.
Variable sys : System.
Variable wm_class_hash_ : gmap string DesktopAppInfo.

Local Abbreviation buildTree := (buildTree sys wm_class_hash_).
Local Abbreviation addWindow := (addWindow sys wm_class_hash_).
Local Abbreviation window_of := (window_of sys wm_class_hash_).

(** X10.  A node whose type is none of "root", "output", "workspace",
    "con" and "floating_con" is skipped together with everything below it:
    walking it leaves the vector of workspaces as it was. *)
Theorem buildTree_unknown_type (node : Node) (ws : list Workspace) :
  is_structural node = false ->
  is_con node = false ->
  buildTree node ws = ws.
Proof.
  unfold is_structural, is_con. intros Hs Hc.
  apply orb_false_elim in Hs as [Hs Hw]. apply orb_false_elim in Hs as [Hr Ho].
  rewrite buildTree_unfold. cbv zeta. now rewrite Hr, Ho, Hw, Hc.
Qed.

(** Attaching windows, one [addWindow] per window node. *)
Lemma attach_windows (leaves : list Node) (w : Workspace) :
  let w' :=
    fold_left
      (fun w leaf => addWindow (id leaf) (WindowProperties.fromJson leaf) w)
      leaves w in
  ws_id w' = ws_id w /\ props w' = props w
  /\ windows w' = windows w ++ map window_of leaves.
Proof.
  revert w. induction leaves as [|leaf leaves IH]; intros w; simpl.
  - now rewrite app_nil_r.
  - destruct (IH (addWindow (id leaf) (WindowProperties.fromJson leaf) w))
      as (Hid & Hp & Hw).
    simpl in *. rewrite Hid, Hp, Hw, <- app_assoc. repeat split.
Qed.

Lemma fold_buildTree_containers (children : list Node) :
  Forall (fun c =>
            containers_only c = true ->
            forall ws w,
              buildTree c (ws ++ [w])
              = ws ++ [fold_left
                         (fun w leaf =>
                            addWindow (id leaf)
                              (WindowProperties.fromJson leaf) w)
                         (window_leaves c) w])
    children ->
  forallb containers_only children = true ->
  forall ws w,
    fold_left (fun ws child => buildTree child ws) children (ws ++ [w])
    = ws ++ [fold_left
               (fun w leaf =>
                  addWindow (id leaf) (WindowProperties.fromJson leaf) w)
               (flat_map window_leaves children) w].
Proof.
  induction 1 as [|c cs Hc _ IH]; simpl; intros Hall ws w; [reflexivity|].
  apply andb_prop in Hall as [Hc1 Hcs].
  rewrite (Hc Hc1), (IH Hcs), fold_left_app. reflexivity.
Qed.

(** Below a workspace, walking a subtree of containers attaches its window
    nodes, in order, to the last workspace of the vector. *)
Lemma buildTree_containers (node : Node) :
  containers_only node = true ->
  forall ws w,
    buildTree node (ws ++ [w])
    = ws ++ [fold_left
               (fun w leaf =>
                  addWindow (id leaf) (WindowProperties.fromJson leaf) w)
               (window_leaves node) w].
Proof.
  induction node as [node IHn IHf] using Node_nested_ind.
  rewrite containers_only_unfold, window_leaves_unfold.
  unfold is_structural. intros Hc ws w.
  destruct (String.eqb (type node) "root" || String.eqb (type node) "output"
            || String.eqb (type node) "workspace") eqn:Hs; [discriminate|].
  apply orb_false_elim in Hs as [Hs Hw]. apply orb_false_elim in Hs as [Hr Ho].
  rewrite buildTree_unfold. cbv zeta. rewrite Hr, Ho, Hw. cbn [orb].
  fold (is_con node). destruct (is_con node); [|reflexivity].
  destruct (app_id node).
  - rewrite length_app. simpl.
    replace (0 <? length ws + 1)%nat with true
      by (symmetry; apply Nat.ltb_lt; lia).
    now rewrite on_back_snoc.
  - apply andb_prop in Hc as [Hn Hf]. unfold buildTree_children.
    rewrite (fold_buildTree_containers _ IHn Hn).
    rewrite (fold_buildTree_containers _ IHf Hf).
    now rewrite fold_left_app.
Qed.

(** X12.  For a workspace node that is not a scratchpad and below which
    the walk meets containers only, the walk appends one workspace holding
    the node's id and properties; its windows are the windows built from
    the window nodes below it, depth first, [nodes] before
    [floating_nodes], and a window node's own children are not visited. *)
Theorem workspace_windows_are_leaves (node : Node) (ws : list Workspace) :
  type node = "workspace" ->
  String.prefix "__i3" (name node) = false ->
  forallb containers_only (nodes node ++ floating_nodes node) = true ->
  exists w,
    buildTree node ws = ws ++ [w]
    /\ ws_id w = id node
    /\ props w = WorkspaceProperties.fromJson node
    /\ windows w
       = map window_of
           (flat_map window_leaves (nodes node)
            ++ flat_map window_leaves (floating_nodes node)).
Proof.
  intros Ht Hp Hc. rewrite forallb_app in Hc. apply andb_prop in Hc as [Hn Hf].
  assert (Hfold : forall cs, forallb containers_only cs = true ->
            forall ws w,
              fold_left (fun ws child => buildTree child ws) cs (ws ++ [w])
              = ws ++ [fold_left
                         (fun w leaf =>
                            addWindow (id leaf)
                              (WindowProperties.fromJson leaf) w)
                         (flat_map window_leaves cs) w]).
  { intros cs Hcs. apply fold_buildTree_containers; [|exact Hcs].
    apply Forall_forall. intros c _ Hcc. now apply buildTree_containers. }
  rewrite buildTree_unfold. cbv zeta. rewrite Ht. cbn [String.eqb orb].
  change (String.eqb "workspace" "root") with false.
  change (String.eqb "workspace" "output") with false.
  change (String.eqb "workspace" "workspace") with true. cbn [orb].
  rewrite (substr_prefix "__i3"), Hp. unfold buildTree_children.
  rewrite (Hfold _ Hn), (Hfold _ Hf).
  eexists. split; [reflexivity|].
  destruct (attach_windows
              (flat_map window_leaves (nodes node)
               ++ flat_map window_leaves (floating_nodes node))
              (Workspace_new (id node) (WorkspaceProperties.fromJson node)))
    as (Hid & Hpr & Hw).
  rewrite fold_left_app in Hid, Hpr, Hw.
  rewrite Hid, Hpr, Hw. repeat split.
Qed.

End TreeFacts.

Lemma workspace_windows_are_leaves_witness :
  map (fun w => (ws_id w, map win_id (windows w)))
    (buildTree bare_system ∅ nested_workspace [])
  = [(3, [21; 22; 23])].
Proof.
  destruct (workspace_windows_are_leaves bare_system ∅ nested_workspace []
              eq_refl eq_refl eq_refl) as (w & Hb & Hid & _ & Hw).
  rewrite Hb. simpl. rewrite Hid, Hw. reflexivity.
Defined.

Lemma buildTree_unknown_type_witness :
  let node :=
    mkNode "dockarea" 9 "top" 0 false false false None EmptyString
      EmptyString 0 [nested_workspace] [] in
  buildTree bare_system ∅ node [] = [].
Proof.
  intros node.
  exact (buildTree_unknown_type bare_system ∅ node [] eq_refl eq_refl).
Defined.

Section TreeGrowth.
Variable sys : System.
Variable wm_class_hash_ : gmap string DesktopAppInfo.

Local Abbreviation buildTree := (buildTree sys wm_class_hash_).
Local Abbreviation addWindow := (addWindow sys wm_class_hash_).

Lemma fold_buildTree_empty (children : list Node) :
  Forall (fun c => containers_only c = true -> buildTree c [] = []) children ->
  forallb containers_only children = true ->
  fold_left (fun ws child => buildTree child ws) children [] = [].
Proof.
  induction 1 as [|c cs Hc _ IH]; simpl; intros Hall; [reflexivity|].
  apply andb_prop in Hall as [Hc1 Hcs]. rewrite (Hc Hc1). now apply IH.
Qed.

(** X11.  While the vector of workspaces is empty, a subtree of containers
    adds nothing: windows met before the first workspace are not stored
    anywhere. *)
Theorem windows_before_workspace_dropped (node : Node) :
  containers_only node = true -> buildTree node [] = [].
Proof.
  induction node as [node IHn IHf] using Node_nested_ind.
  rewrite containers_only_unfold. unfold is_structural. intros Hc.
  destruct (String.eqb (type node) "root" || String.eqb (type node) "output"
            || String.eqb (type node) "workspace") eqn:Hs; [discriminate|].
  apply orb_false_elim in Hs as [Hs Hw]. apply orb_false_elim in Hs as [Hr Ho].
  rewrite buildTree_unfold. cbv zeta. rewrite Hr, Ho, Hw. cbn [orb].
  fold (is_con node). destruct (is_con node); [|reflexivity].
  destruct (app_id node); [reflexivity|].
  apply andb_prop in Hc as [Hn Hf]. unfold buildTree_children.
  rewrite (fold_buildTree_empty _ IHn Hn). now apply fold_buildTree_empty.
Qed.

Lemma keeps_refl (w : Workspace) : keeps w w.
Proof. do 2 (split; [reflexivity|]). reflexivity. Qed.

Lemma keeps_trans (a b c : Workspace) : keeps a b -> keeps b c -> keeps a c.
Proof.
  intros (I1 & P1 & W1) (I2 & P2 & W2). repeat split; try congruence.
  now transitivity (windows b).
Qed.

Lemma extends_refl (ws : list Workspace) : extends ws ws.
Proof.
  exists ws, []. split; [now rewrite app_nil_r|].
  induction ws; constructor; [apply keeps_refl | assumption].
Qed.

Lemma extends_trans (a b c : list Workspace) :
  extends a b -> extends b c -> extends a c.
Proof.
  intros (k1 & a1 & -> & H1) (k2 & a2 & -> & H2).
  apply Forall2_app_inv_l in H2 as (k2a & k2b & Ha & Hb & ->).
  exists k2a, (k2b ++ a2). split; [now rewrite app_assoc|].
  clear Hb. revert k2a Ha.
  induction H1 as [|x y a k1 Hxy _ IH]; intros k2a Ha.
  - inversion Ha. constructor.
  - inversion Ha as [|y' z k1' k2a' Hyz Hrest]; subst.
    constructor; [now apply keeps_trans with y | now apply IH].
Qed.

Lemma extends_push (ws : list Workspace) (w : Workspace) :
  extends ws (ws ++ [w]).
Proof.
  exists ws, [w]. split; [reflexivity|].
  induction ws; constructor; [apply keeps_refl | assumption].
Qed.

Lemma extends_on_back (ws : list Workspace) i p :
  extends ws (on_back (addWindow i p) ws).
Proof.
  exists (on_back (addWindow i p) ws), []. split; [now rewrite app_nil_r|].
  induction ws as [|x ws IH]; simpl; [constructor|].
  destruct ws as [|y ws].
  - constructor; [|constructor]. repeat split. simpl. now apply prefix_app_r.
  - constructor; [apply keeps_refl | exact IH].
Qed.

Lemma fold_buildTree_extends (children : list Node) :
  Forall (fun c => forall ws, extends ws (buildTree c ws)) children ->
  forall ws,
    extends ws (fold_left (fun ws child => buildTree child ws) children ws).
Proof.
  induction 1 as [|c cs Hc _ IH]; simpl; intros ws; [apply extends_refl|].
  apply extends_trans with (buildTree c ws); [apply Hc | apply IH].
Qed.

(** X13.  The walk only adds: after walking any node, the workspaces that
    were in the vector are still there, in the same places, with the same
    ids and properties, and each holds its earlier windows first. *)
Theorem buildTree_extends (node : Node) (ws : list Workspace) :
  extends ws (buildTree node ws).
Proof.
  revert ws. induction node as [node IHn IHf] using Node_nested_ind.
  assert (Hrec : forall ws,
            extends ws (buildTree_children sys wm_class_hash_ node ws)).
  { intros ws. unfold buildTree_children.
    eapply extends_trans; [|apply fold_buildTree_extends, IHf].
    apply fold_buildTree_extends, IHn. }
  intros ws. rewrite buildTree_unfold. cbv zeta.
  destruct (String.eqb (type node) "root" || String.eqb (type node) "output");
    [apply Hrec|].
  destruct (String.eqb (type node) "workspace").
  - destruct (String.eqb (StdString.substr 0 4 (name node)) "__i3");
      [apply extends_refl|].
    eapply extends_trans; [apply extends_push | apply Hrec].
  - destruct (String.eqb (type node) "con"
              || String.eqb (type node) "floating_con");
      [|apply extends_refl].
    destruct (app_id node); [|apply Hrec].
    destruct (0 <? length ws)%nat;
      [apply extends_on_back | apply extends_refl].
Qed.

Lemma addWindow_content i p (w : Workspace) :
  content (addWindow i p w)
  = if negb (existsb
               (fun x =>
                  String.eqb (getResolvedAppId x)
                    (getResolvedAppId (Window_new sys wm_class_hash_ i p)))
               (windows w))
    then content w ++ [Window_new sys wm_class_hash_ i p]
    else content w.
Proof. reflexivity. Qed.

(** X14.  Two windows with the same properties resolve to the same
    identity: adding the second stores it but gives it no button, whatever
    their ids. *)
Theorem addWindow_same_props_one_button (i1 i2 : Z)
    (p : WindowProperties.t) (w : Workspace) :
  let w1 := addWindow i1 p w in
  let w2 := addWindow i2 p w1 in
  content w2 = content w1
  /\ map win_id (windows w2) = map win_id (windows w) ++ [i1; i2].
Proof.
  intros w1 w2. split.
  - assert (Hrep :
      existsb
        (fun x => String.eqb (getResolvedAppId x)
                    (getResolvedAppId (Window_new sys wm_class_hash_ i2 p)))
        (windows w1) = true).
    { change (windows w1)
        with (windows w ++ [Window_new sys wm_class_hash_ i1 p]).
      rewrite existsb_app. apply orb_true_iff. right. cbn [existsb].
      change (getResolvedAppId (Window_new sys wm_class_hash_ i2 p))
        with (getResolvedAppId (Window_new sys wm_class_hash_ i1 p)).
      now rewrite String.eqb_refl. }
    unfold w2. rewrite addWindow_content, Hrep. reflexivity.
  - change (windows w2)
      with ((windows w ++ [Window_new sys wm_class_hash_ i1 p])
            ++ [Window_new sys wm_class_hash_ i2 p]).
    rewrite !map_app, <- app_assoc. reflexivity.
Qed.

End TreeGrowth.

Lemma Workspace_eq (a b : Workspace) :
  ws_id a = ws_id b -> props a = props b -> windows a = windows b ->
  content a = content b -> a = b.
Proof. destruct a, b; simpl; intros; subst; reflexivity. Qed.

(** X15.  [Workspace::update] is idempotent: the constructor runs it and a
    rebuild runs it again, and running it on its own result changes
    nothing. *)
Theorem Workspace_update_idempotent (w : Workspace) :
  Workspace_update (Workspace_update w) = Workspace_update w.
Proof.
  apply Workspace_eq; try reflexivity.
  rewrite (Workspace_update_props (Workspace_update w)).
  rewrite (Workspace_update_props w).
  change (windows (Workspace_update w)) with (windows w). simpl.
  generalize (existsb (fun x => WindowProperties.focused (win_props x))
                (windows w)) as f.
  generalize (existsb (fun x => WindowProperties.visible (win_props x))
                (windows w)) as v.
  intros v f.
  destruct (WorkspaceProperties.focused (props w)),
    (WorkspaceProperties.visible (props w)), f, v; reflexivity.
Qed.

Lemma windows_before_workspace_dropped_witness :
  buildTree bare_system ∅
    (mkNode "con" 20 EmptyString 0 false false false None
       EmptyString EmptyString 0
       [wayland_window 21 "kitty" 300 false false false] []) []
  = [].
Proof.
  apply (windows_before_workspace_dropped bare_system ∅). reflexivity.
Defined.

(** *** More on scrolling *)

(** X16.  For a vector that fits the index type: scrolling forward from
    index [i] selects [i + 1], or the first workspace when [i] is the last;
    scrolling back from an index other than the first selects [i - 1]. *)
Theorem cycle_index_neighbours (i size : nat) :
  (i < size)%nat ->
  Z.of_nat size < 2 ^ 63 ->
  cycle_index i 1 size
  = (if (S i <? size)%nat then Z.of_nat i + 1 else 0)
  /\ ((0 < i)%nat -> cycle_index i (-1) size = Z.of_nat i - 1).
Proof.
  intros Hi Hsize. unfold cycle_index, SIZE_WIDTH.
  assert (H64 : 2 ^ 63 < 2 ^ 64) by reflexivity. split.
  - rewrite (Z.mod_small (Z.of_nat i + 1)) by lia.
    destruct (Nat.ltb_spec (S i) size).
    + apply Z.mod_small. lia.
    + replace (Z.of_nat i + 1) with (Z.of_nat size) by lia.
      apply Z_mod_same_full.
  - intros Hpos. rewrite (Z.mod_small (Z.of_nat i + -1)) by lia.
    replace (Z.of_nat i + -1) with (Z.of_nat i - 1) by lia.
    apply Z.mod_small. lia.
Qed.

(** X17.  Scrolling back from the first workspace selects the last one
    exactly when the number of workspaces divides 2^64; otherwise another
    workspace is selected. *)
Theorem cycle_index_back_from_first (size : nat) :
  (0 < size)%nat ->
  cycle_index 0 (-1) size = Z.of_nat size - 1
  <-> 2 ^ 64 mod Z.of_nat size = 0.
Proof.
  intros Hsize. unfold cycle_index, SIZE_WIDTH.
  change ((Z.of_nat 0 + -1) mod 2 ^ 64) with (2 ^ 64 - 1).
  set (n := Z.of_nat size). set (M := 2 ^ 64).
  assert (Hn : 0 < n) by (unfold n; lia).
  pose proof (Z.div_mod M n ltac:(lia)) as Hdiv.
  pose proof (Z.mod_pos_bound M n Hn) as Hr.
  destruct (Z.eq_dec (M mod n) 0) as [E|E].
  - split; [intros _; exact E|]. intros _. symmetry.
    apply (Z.mod_unique (M - 1) n (M / n - 1) (n - 1)); lia.
  - split; [|intros H; contradiction]. intros H.
    assert (Hm : (M - 1) mod n = M mod n - 1).
    { symmetry. apply (Z.mod_unique (M - 1) n (M / n) (M mod n - 1)); lia. }
    lia.
Qed.

Lemma cycle_index_neighbours_witness :
  cycle_index 2 1 3 = 0 /\ cycle_index 2 (-1) 3 = 1.
Proof.
  destruct (cycle_index_neighbours 2 3 ltac:(lia) eq_refl) as [Hf Hb].
  split; [exact Hf | apply Hb; lia].
Defined.

Lemma cycle_index_back_from_first_witness :
  cycle_index 0 (-1) 4 = 3.
Proof.
  apply (proj2 (cycle_index_back_from_first 4 ltac:(lia))). reflexivity.
Defined.

Lemma cycleWorkspace_total (delta : Z) (st : Impl) :
  exists st',
    cycleWorkspace delta st = Some st'
    /\ (st' = st
        \/ exists target,
             target ∈ workspaces_ st
             /\ st' = activateWorkspace
                        (WorkspaceProperties.num (props target)) st).
Proof.
  unfold cycleWorkspace.
  destruct (find_if _ (workspaces_ st)) as [i|] eqn:Hfind;
    [|exists st; split; [reflexivity | now left]].
  pose proof (find_if_bound _ _ _ Hfind) as Hi.
  set (k := cycle_index i delta (length (workspaces_ st))).
  assert (Hk : 0 <= k < Z.of_nat (length (workspaces_ st)))
    by (unfold k, cycle_index; apply Z.mod_pos_bound; lia).
  destruct (lookup_lt_is_Some_2 (workspaces_ st) (Z.to_nat k)) as [target Ht];
    [lia|].
  cbv zeta. fold k. rewrite Ht.
  destruct (Z.leb_spec 0 k); [|lia].
  destruct (Z.ltb_spec k (Z.of_nat (length (workspaces_ st)))); [|lia].
  eexists. split; [reflexivity|]. right. exists target.
  split; [|reflexivity]. apply list_elem_of_lookup. now exists (Z.to_nat k).
Qed.

(** X18.  Whatever the direction and the state, [handleScroll] stays inside
    the vector of workspaces, leaves the model and the payload alone, and
    sends nothing or one command "workspace number N", N being the [num] of
    a workspace of the model; with no focused workspace it sends nothing. *)
Theorem handleScroll_one_command (direction : SCROLL_DIR) (st : Impl) :
  exists st',
    handleScroll direction st = Some st'
    /\ workspaces_ st' = workspaces_ st
    /\ payload_ st' = payload_ st
    /\ (ipc_sent st' = ipc_sent st
        \/ exists target,
             target ∈ workspaces_ st
             /\ ipc_sent st'
                = ipc_sent st
                  ++ [(IPC_COMMAND,
                       "workspace number "
                       +:+ pretty (WorkspaceProperties.num (props target)))])
    /\ (find_if (fun w => WorkspaceProperties.focused (props w))
          (workspaces_ st) = None ->
        st' = st).
Proof.
  assert (Hc : forall delta,
            exists st',
              cycleWorkspace delta st = Some st'
              /\ workspaces_ st' = workspaces_ st
              /\ payload_ st' = payload_ st
              /\ (ipc_sent st' = ipc_sent st
                  \/ exists target,
                       target ∈ workspaces_ st
                       /\ ipc_sent st'
                          = ipc_sent st
                            ++ [(IPC_COMMAND,
                                 "workspace number "
                                 +:+ pretty (WorkspaceProperties.num
                                               (props target)))])
              /\ (find_if (fun w => WorkspaceProperties.focused (props w))
                    (workspaces_ st) = None ->
                  st' = st)).
  { intros delta.
    destruct (cycleWorkspace_total delta st) as (st' & Hs & Hst').
    exists st'. split; [exact Hs|].
    assert (Hnone : find_if (fun w => WorkspaceProperties.focused (props w))
                      (workspaces_ st) = None -> st' = st).
    { intros Hf. unfold cycleWorkspace in Hs. rewrite Hf in Hs.
      now injection Hs. }
    destruct Hst' as [->|(target & Hin & ->)].
    - repeat split; try reflexivity. now left.
    - repeat split; try reflexivity; [|exact Hnone].
      right. now exists target. }
  destruct direction; simpl; try apply Hc.
  exists st. repeat split; try reflexivity. now left.
Qed.

(** *** More on the signals *)

Section SignalFacts.
Variable sys : System.
Variable wm_class_hash_ : gmap string DesktopAppInfo.
Variable parser_parse : string -> option Node.
Variable std_sort :
  (Workspace -> Workspace -> bool) -> list Workspace -> list Workspace.

Local Abbreviation handle :=
  (handle sys wm_class_hash_ parser_parse std_sort).
Local Abbreviation run := (run sys wm_class_hash_ parser_parse std_sort).
Local Abbreviation update := (update sys wm_class_hash_ std_sort).

Lemma handle_sent (st : Impl) (ev : Event) :
  ipc_sent (handle st ev) = ipc_sent st
  \/ ipc_sent (handle st ev) = ipc_sent st ++ [(IPC_GET_TREE, EmptyString)].
Proof.
  destruct ev as [res|res|]; unfold WorkspaceTasks.handle.
  - now right.
  - left. unfold onCmd. destruct (decide (res_type res = IPC_GET_TREE));
      [destruct (parser_parse (res_payload res))|]; reflexivity.
  - now left.
Qed.

(** X19.  The signal handlers and the redisplay send nothing but GET_TREE
    requests with an empty payload: after the constructor and any sequence
    of signals no command has gone to the compositor. *)
Theorem signals_send_only_get_tree (evs : list Event) :
  Forall (fun c => c = (IPC_GET_TREE, EmptyString)) (ipc_sent (run evs)).
Proof.
  unfold WorkspaceTasks.run.
  assert (H0 : Forall (fun c => c = (IPC_GET_TREE, EmptyString))
                 (ipc_sent Impl_new)) by (repeat constructor).
  revert H0. generalize Impl_new as st.
  induction evs as [|ev evs IH]; intros st Hst; simpl; [exact Hst|].
  apply IH. destruct (handle_sent st ev) as [->| ->]; [exact Hst|].
  apply Forall_app. split; [exact Hst | repeat constructor].
Qed.

Lemma handle_payload_kept (st : Impl) (ev : Event) :
  good_answer parser_parse ev = false ->
  payload_ (handle st ev) = payload_ st.
Proof.
  destruct ev as [res|res|]; unfold WorkspaceTasks.handle; simpl;
    try reflexivity.
  unfold onCmd. intros Hg.
  destruct (decide (res_type res = IPC_GET_TREE)) as [Ht|]; [|reflexivity].
  destruct (parser_parse (res_payload res)) as [j|] eqn:Hp; [|reflexivity].
  rewrite bool_decide_eq_true_2 in Hg by exact Ht.
  rewrite bool_decide_eq_true_2 in Hg by (now exists j). discriminate Hg.
Qed.

Lemma handle_good_answer (st : Impl) (s : string) (j : Node) :
  parser_parse s = Some j ->
  payload_ (handle st (SignalCmd (mk_ipc_response IPC_GET_TREE s))) = j.
Proof.
  intros Hp. unfold WorkspaceTasks.handle, onCmd.
  destruct (decide (res_type (mk_ipc_response IPC_GET_TREE s) = IPC_GET_TREE))
    as [_|Hne]; [|now contradiction Hne].
  cbn [res_payload]. now rewrite Hp.
Qed.

Lemma fold_payload_kept (evs : list Event) (st : Impl) :
  Forall (fun ev => good_answer parser_parse ev = false) evs ->
  payload_ (fold_left handle evs st) = payload_ st.
Proof.
  intros Hall. revert st.
  induction Hall as [|ev evs Hev _ IH]; intros st; simpl; [reflexivity|].
  rewrite IH. now apply handle_payload_kept.
Qed.

(** X20.  A redisplay shows the rebuild of the most recent GET_TREE answer
    that parsed: notifications, answers of another type, answers whose
    payload does not parse and earlier redisplays in between do not change
    what is shown next, and the model shown before plays no part. *)
Theorem dispatch_shows_last_good_answer (evs1 evs2 : list Event)
    (s : string) (j : Node) :
  parser_parse s = Some j ->
  Forall (fun ev => good_answer parser_parse ev = false) evs2 ->
  let st := run (evs1 ++ SignalCmd (mk_ipc_response IPC_GET_TREE s) :: evs2) in
  payload_ st = j /\ workspaces_ (handle st Dispatch) = update j.
Proof.
  intros Hp Hevs2 st.
  assert (Hj : payload_ st = j).
  { unfold st, WorkspaceTasks.run. rewrite fold_left_app. cbn [fold_left].
    rewrite fold_payload_kept by exact Hevs2.
    now apply handle_good_answer. }
  split; [exact Hj|]. simpl. now rewrite Hj.
Qed.

(** X21.  Until a GET_TREE answer parses, the payload is the null value
    and a redisplay shows no workspace. *)
Theorem dispatch_without_answer_shows_nothing (evs : list Event) :
  std_sort_contract std_sort ->
  Forall (fun ev => good_answer parser_parse ev = false) evs ->
  payload_ (run evs) = json_null
  /\ workspaces_ (handle (run evs) Dispatch) = [].
Proof.
  intros Hsort Hevs.
  assert (Hj : payload_ (run evs) = json_null).
  { unfold WorkspaceTasks.run. now rewrite fold_payload_kept. }
  split; [exact Hj|]. simpl. rewrite Hj. unfold WorkspaceTasks.update.
  change (buildTree sys wm_class_hash_ json_null []) with (@nil Workspace).
  destruct (Hsort by_num [] by_num_strict_weak_order) as [Hperm _].
  apply Permutation_nil_l in Hperm. now rewrite <- Hperm.
Qed.

End SignalFacts.

Lemma dispatch_shows_last_good_answer_witness :
  let parse := fun s : string =>
    if String.eqb s "tree" then Some three_workspaces else None in
  let answer := fun s => SignalCmd (mk_ipc_response IPC_GET_TREE s) in
  let note := SignalEvent (mk_ipc_response (IPC_OTHER 0) EmptyString) in
  map (fun w => WorkspaceProperties.title (props w))
    (workspaces_
       (handle bare_system ∅ parse sort_stable
          (run bare_system ∅ parse sort_stable
             [note; answer "tree"; Dispatch; answer "{"; note])
          Dispatch))
  = ["1"; "2"; "3"].
Proof.
  intros parse answer note.
  destruct (dispatch_shows_last_good_answer bare_system ∅ parse sort_stable
              [note] [Dispatch; answer "{"; note] "tree" three_workspaces
              eq_refl ltac:(repeat constructor)) as [_ Hw].
  etransitivity;
    [exact (f_equal (map (fun w => WorkspaceProperties.title (props w))) Hw)|].
  vm_compute. reflexivity.
Defined.

Lemma dispatch_without_answer_shows_nothing_witness :
  let parse := fun _ : string => @None Node in
  workspaces_
    (handle bare_system ∅ parse sort_stable
       (run bare_system ∅ parse sort_stable
          [SignalCmd (mk_ipc_response IPC_GET_TREE "{")])
       Dispatch)
  = [].
Proof.
  intros parse.
  refine (proj2 (dispatch_without_answer_shows_nothing bare_system ∅ parse
                   sort_stable _ sort_stable_contract _)).
  repeat constructor.
Defined.

(** *** The commands *)

Lemma append_inj_l (p a b : string) : p +:+ a = p +:+ b -> a = b.
Proof.
  induction p as [|c p IH]; intros H; [exact H|].
  change (String c (p +:+ a) = String c (p +:+ b)) in H.
  injection H as H. now apply IH.
Qed.

Lemma append_inj_r (a b s : string) : a +:+ s = b +:+ s -> a = b.
Proof.
  revert b. induction a as [|c a IH]; intros [|d b] H.
  - reflexivity.
  - apply (f_equal String.length) in H.
    change (String.length s = S (String.length (b +:+ s))) in H.
    rewrite length_append in H. lia.
  - apply (f_equal String.length) in H.
    change (S (String.length (a +:+ s)) = String.length s) in H.
    rewrite length_append in H. lia.
  - change (String c (a +:+ s) = String d (b +:+ s)) in H.
    injection H as -> H. f_equal. now apply IH.
Qed.

(** X22.  The command strings tell their targets apart: two workspace
    numbers give the same "workspace number N" command only when they are
    equal, two window ids the same "[con_id=N] focus" command only when
    they are equal, and no workspace command is a window command. *)
Theorem activate_commands_distinct (st : Impl) :
  (forall n1 n2,
     activateWorkspace n1 st = activateWorkspace n2 st -> n1 = n2)
  /\ (forall i1 i2, activateWindow i1 st = activateWindow i2 st -> i1 = i2)
  /\ (forall n i, activateWorkspace n st <> activateWindow i st).
Proof.
  unfold activateWorkspace, activateWindow, sendCmd. repeat split.
  - intros n1 n2 H. injection H as H. apply app_inv_head in H.
    injection H as H. apply append_inj_l in H.
    now apply (inj pretty) in H.
  - intros i1 i2 H. injection H as H. apply app_inv_head in H.
    injection H as H. apply append_inj_l, append_inj_r in H.
    now apply (inj pretty) in H.
  - intros n i H. injection H as H. apply app_inv_head in H.
    assert (Hs : "workspace number " +:+ pretty n
                 = "[con_id=" +:+ pretty i +:+ "] focus") by congruence.
    change (String "w" ("orkspace number " +:+ pretty n)
            = String "[" ("con_id=" +:+ pretty i +:+ "] focus")) in Hs.
    discriminate Hs.
Qed.

Lemma handleScroll_one_command_witness :
  fmap ipc_sent (handleScroll SCROLL_DOWN scroll_state)
  = Some [(IPC_GET_TREE, EmptyString); (IPC_COMMAND, "workspace number 2")]
  /\ handleScroll SCROLL_UP Impl_new = Some Impl_new.
Proof.
  split; [vm_compute; reflexivity|].
  destruct (handleScroll_one_command SCROLL_UP Impl_new)
    as (st' & Hs & _ & _ & _ & Hnone).
  rewrite Hs. f_equal. apply Hnone. reflexivity.
Defined.

Lemma activate_commands_distinct_witness :
  (3 = 3) /\ activateWorkspace 3 Impl_new <> activateWindow 3 Impl_new.
Proof.
  destruct (activate_commands_distinct Impl_new) as (Hw & _ & Hd).
  split; [exact (Hw 3 3 eq_refl) | exact (Hd 3 3)].
Defined.
